(** * Minitalk: a bit-by-bit message protocol over UNIX signals

    A shallow embedding of [srcs/client.c], [srcs/server.c] and
    [srcs/utils.c].

    - C [int] and [pid_t] values are integers of [Z]; no arithmetic of the
      program leaves the 32-bit range (the bit counter stays in [-1..7]).
    - C [char] is the signed 8-bit type of the x86-64 Linux ABI: a value of
      [-128..127]; storing an [int] into a [char] wraps ([to_char]).
    - A C string is the list of its characters before the terminating NUL.
    - System and library calls are events appended to a trace; the value a
      call returns is given by the environment [sys], a function of the
      history of the process and of the call.
    - [exit] ends the process: the outcome [Exit status] skips everything
      that follows. *)

From Stdlib Require Import ZArith List String Ascii Bool Lia.

Import ListNotations.

Open Scope Z_scope.

(** ** Constants of the system headers *)

(** <signal.h> on Linux (x86, ARM): SIGUSR1 is 10 and SIGUSR2 is 12. *)
Definition SIGUSR1 : Z := 10.

Definition SIGUSR2 : Z := 12.

(** <signal.h>: the [sa_flags] bits used by the program. *)
Definition SA_SIGINFO : Z := 4.

Definition SA_RESTART : Z := 268435456.

(** <stdlib.h> and <unistd.h>. *)
Definition EXIT_SUCCESS : Z := 0.

Definition EXIT_FAILURE : Z := 1.

Definition STDIN_FILENO : Z := 0.

Definition STDOUT_FILENO : Z := 1.

Definition STDERR_FILENO : Z := 2.

(** ** Characters *)

(** Conversion of an [int] to [char] (signed, 8 bits, wrap-around). *)
Definition to_char (z : Z) : Z := (z + 128) mod 256 - 128.

(** The values a [char] holds. *)
Definition is_char (c : Z) : Prop := -128 <= c <= 127.

(** A C string: the characters before the NUL. *)
Definition cstring := list Z.

(** The newline character and the one-character string that holds it. *)
Definition NL : Z := 10.

Definition nl : string := String (ascii_of_nat 10) EmptyString.

(** The double-quote character, as a string. *)
Definition dq : string := String (ascii_of_nat 34) EmptyString.

(** ** Events and the process monad *)

(** The handler a [sigaction] call installs. *)
Inductive handler := Ack_handler | Signal_handler.

Inductive event :=
| Kill (pid sig : Z)                          (* kill(pid, sig) *)
| Write (fd : Z) (buf : list Z)               (* write(fd, buf, length buf) *)
| Sigaction (signum : Z) (h : handler) (flags : Z)
| Usleep (usec : Z)
| Getpid
| Printf (s : string) (args : list Z)         (* printf(s, args...) *)
| Fprintf_stderr (s : string)                 (* fprintf(stderr, ...), formatted *)
| Perror (s : string)
| Putstr_fd (s : string) (fd : Z).            (* libft's ft_putstr_fd(s, fd) *)

(** How a computation ends: it returns, the process exits, or the process
    blocks for ever. *)
Inductive outcome (A : Type) :=
| Ret (a : A)
| Exit (status : Z)
| Hang.

Arguments Ret {A} a.

Arguments Exit {A} status.

Arguments Hang {A}.

(** A computation over the process state [S] and the trace of events. *)
Definition M (S A : Type) : Type := S -> list event -> outcome A * S * list event.

Definition ret {S A} (a : A) : M S A := fun s h => (Ret a, s, h).

Definition bind {S A B} (m : M S A) (k : A -> M S B) : M S B :=
  fun s h =>
    match m s h with
    | (Ret a, s', h') => k a s' h'
    | (Exit st, s', h') => (Exit st, s', h')
    | (Hang, s', h') => (Hang, s', h')
    end.

Notation "x <- m ;; k" := (bind m (fun x => k))
  (at level 61, m at next level, right associativity).

Notation "m ;; k" := (bind m (fun _ => k))
  (at level 61, right associativity).

Definition get {S} : M S S := fun s h => (Ret s, s, h).

Definition put {S} (s : S) : M S unit := fun _ h => (Ret tt, s, h).

Definition modify {S} (f : S -> S) : M S unit := fun s h => (Ret tt, f s, h).

Definition emit {S} (e : event) : M S unit := fun s h => (Ret tt, s, h ++ [e]).

Definition exit {S A} (status : Z) : M S A := fun s h => (Exit status, s, h).

Definition hang {S A} : M S A := fun s h => (Hang, s, h).

(** Projections of a run. *)
Definition result {A S} (r : outcome A * S * list event) : outcome A := fst (fst r).

Definition state_of {A S} (r : outcome A * S * list event) : S := snd (fst r).

Definition trace_of {A S} (r : outcome A * S * list event) : list event := snd r.

(** The system calls of the transport and of the output: [kill], [write]
    and [sigaction]. The others are library calls whose status the program
    never looks at. *)
Definition fallible (e : event) : bool :=
  match e with
  | Kill _ _ | Write _ _ | Sigaction _ _ _ => true
  | _ => false
  end.

(** What the trace shows from outside. *)
Definition signals_sent (t : list event) : list Z :=
  flat_map (fun e => match e with Kill _ sig => [sig] | _ => [] end) t.

Definition kills (t : list event) : list (Z * Z) :=
  flat_map (fun e => match e with Kill pid sig => [(pid, sig)] | _ => [] end) t.

Definition written (fd : Z) (t : list event) : list Z :=
  flat_map (fun e => match e with
                     | Write fd' buf => if fd' =? fd then buf else []
                     | _ => []
                     end) t.

(** * The program *)

Section Process.

(** [sys h e]: the value the call [e] returns after the history [h]. *)
Variable sys : list event -> event -> Z.

(** [ack_after h]: how many times the sender's polling loop finds the flag
    still clear before the acknowledgment handler has run, after the history
    [h]; [None] when no acknowledgment ever arrives. *)
Variable ack_after : list event -> option nat.

Definition call {S} (e : event) : M S Z := fun s h => (Ret (sys h e), s, h ++ [e]).

(** *** utils.c *)

Definition sys_error {S A} (error_message : string) : M S A :=
  emit (Fprintf_stderr ("Error: " ++ error_message ++ nl)) ;;
  emit (Perror "System call error") ;;
  exit EXIT_FAILURE.

Definition display_information_server {S} (pid : Z) : M S unit :=
  emit (Printf ("PID: %d" ++ nl) [pid]) ;;
  emit (Printf ("Waiting for a message..." ++ nl) []).

Definition validate_input_server {S} (argc : Z) : M S unit :=
  if negb (argc =? 1) then
    emit (Fprintf_stderr ("Error: wrong format" ++ nl)) ;;
    emit (Fprintf_stderr ("Usage: ./server" ++ nl)) ;;
    exit EXIT_FAILURE
  else ret tt.

Definition validate_input_client {S} (argc : Z) : M S unit :=
  if negb (argc =? 3) then
    emit (Fprintf_stderr ("Error: wrong format" ++ nl)) ;;
    emit (Fprintf_stderr ("Usage: ./client <PID> <" ++ dq ++ "MESSAGE" ++ dq ++ ">" ++ nl)) ;;
    exit EXIT_FAILURE
  else ret tt.

(** libft's [ft_atoi] is not part of the sources: the conversion is a
    parameter. *)
Variable ft_atoi : cstring -> Z.

Definition get_server_pid_from_input {S} (argv : list cstring) : M S Z :=
  let pid := ft_atoi (nth 1 argv []) in
  if pid <=? 0 then
    emit (Fprintf_stderr ("Error: invalid PID." ++ nl)) ;;
    exit EXIT_FAILURE
  else ret pid.

(** *** server.c *)

(** The statics [bit] and [c] of [signal_handler] and the global
    [g_client_pid]. *)
Record server := mkServer {
  bit : Z;
  c : Z;
  g_client_pid : Z
}.

Definition server_init : server := mkServer 7 0 0.

(** [handle_received_bit(sig, &bit, &c)]: returns the new values of [bit]
    and [c]. *)
Definition handle_received_bit (sig : Z) (bit c : Z) : Z * Z :=
  let c' := if sig =? SIGUSR1
            then to_char (Z.lor c (Z.shiftl 1 bit))
            else to_char (Z.land c (Z.lnot (Z.shiftl 1 bit))) in
  (bit - 1, c').

(** [process_character(&c, &bit)]: returns the new values of [c] and [bit]. *)
Definition process_character {S} (c bit : Z) : M S (Z * Z) :=
  if bit <? 0 then
    (if c =? 0 then
       r <- call (Write 1 [NL]) ;;
       if r =? -1 then sys_error "Server: write failed" else ret tt
     else
       r <- call (Write 1 [c]) ;;
       if r =? -1 then sys_error "Server: write failed" else ret tt) ;;
    ret (0, 7)
  else ret (c, bit).

Definition signal_handler (sig si_pid : Z) : M server unit :=
  modify (fun st => mkServer (bit st) (c st) si_pid) ;;
  modify (fun st => let '(bit1, c1) := handle_received_bit sig (bit st) (c st) in
                    mkServer bit1 c1 (g_client_pid st)) ;;
  st <- get ;;
  cb <- process_character (c st) (bit st) ;;
  modify (fun st => mkServer (snd cb) (fst cb) (g_client_pid st)) ;;
  st <- get ;;
  r <- call (Kill (g_client_pid st) SIGUSR1) ;;
  if r =? -1 then sys_error "Server: ACK failed" else ret tt.

Definition setup_signals {S} : M S unit :=
  let flags := Z.lor SA_SIGINFO SA_RESTART in
  (r <- call (Sigaction SIGUSR1 Signal_handler flags) ;;
   if r =? -1 then sys_error "Server: SIGUSR1 setup failed" else ret tt) ;;
  (r <- call (Sigaction SIGUSR2 Signal_handler flags) ;;
   if r =? -1 then sys_error "Server: SIGUSR2 setup failed" else ret tt).

(** [main] of the server; [while (true) pause();] never returns. *)
Definition server_main (argv : list cstring) : M server Z :=
  validate_input_server (Z.of_nat (List.length argv)) ;;
  pid <- call Getpid ;;
  display_information_server pid ;;
  setup_signals ;;
  hang.

(** The handler run on a sequence of notifications (signal, sender id). *)
Fixpoint deliver (ns : list (Z * Z)) : M server unit :=
  match ns with
  | [] => ret tt
  | (sig, pid) :: rest => signal_handler sig pid ;; deliver rest
  end.

(** *** client.c *)

(** The global [g_ack_received]. *)
Record client := mkClient {
  g_ack_received : Z
}.

Definition client_init : client := mkClient 0.

(** [ack_handler(sig)]: the signal number is not looked at. *)
Definition ack_handler (sig : Z) (s : client) : client := mkClient 1.

Definition setup_ack_signal : M client unit :=
  r <- call (Sigaction SIGUSR1 Ack_handler SA_RESTART) ;;
  if r =? -1 then sys_error "Client: sigaction failed" else ret tt.

(** [while (!g_ack_received) usleep(100);] The flag is written by
    [ack_handler] only, which runs when the environment delivers the
    acknowledgment: the loop sleeps [n] times and leaves with the flag set,
    or never leaves. *)
Definition wait_for_ack : M client unit :=
  fun s h =>
    match ack_after h with
    | Some n => (Ret tt, ack_handler SIGUSR1 s, h ++ repeat (Usleep 100) n)
    | None => (Hang, s, h)
    end.

(** The loop of [send_char_bits]: [n] is [bit + 1], so that [bit >= 0] is
    [n <> 0] and [bit--] goes from [S n'] to [n']. *)
Fixpoint send_char_loop (pid ch : Z) (n : nat) : M client unit :=
  match n with
  | O => ret tt
  | S n' =>
      let bit := Z.of_nat n' in
      put (mkClient 0) ;;
      (if negb (Z.land (Z.shiftr ch bit) 1 =? 0) then
         r <- call (Kill pid SIGUSR1) ;;
         if r =? -1 then sys_error "Failed to send SIGUSR1" else ret tt
       else
         r <- call (Kill pid SIGUSR2) ;;
         if r =? -1 then sys_error "Failed to send SIGUSR2" else ret tt) ;;
      wait_for_ack ;;
      emit (Usleep 100) ;;
      send_char_loop pid ch n'
  end.

Definition send_char_bits (pid ch : Z) : M client unit :=
  send_char_loop pid ch 8.

(** [while ( *msg) send_char_bits(pid, *msg++); send_char_bits(pid, 0);] *)
Fixpoint send_message (pid : Z) (msg : cstring) : M client unit :=
  match msg with
  | [] => send_char_bits pid 0
  | ch :: rest =>
      if ch =? 0 then send_char_bits pid 0
      else send_char_bits pid ch ;; send_message pid rest
  end.

(** [main] of the client; [argc] is the length of [argv]. *)
Definition client_main (argv : list cstring) : M client Z :=
  validate_input_client (Z.of_nat (List.length argv)) ;;
  pid <- get_server_pid_from_input argv ;;
  setup_ack_signal ;;
  send_message pid (nth 2 argv []) ;;
  emit (Putstr_fd ("Message sent successfully!" ++ nl) STDIN_FILENO) ;;
  ret EXIT_SUCCESS.

End Process.

(** The status a process ends with: what [main] returns or what [exit] was
    given. *)
Definition exit_status (o : outcome Z) : option Z :=
  match o with
  | Ret v => Some v
  | Exit st => Some st
  | Hang => None
  end.

(** * Definitions for the statements *)

(** ** The signals of a message, as the protocol describes them *)

(** SIGUSR1 for a 1 bit, SIGUSR2 for a 0 bit. *)
Definition signal_of_bit (b : bool) : Z := if b then SIGUSR1 else SIGUSR2.

(** The bit positions of a unit, most significant first. *)
Definition positions : list Z := [7; 6; 5; 4; 3; 2; 1; 0].

Definition char_signals (ch : Z) : list Z :=
  map (fun i => signal_of_bit (Z.testbit ch i)) positions.

(** The content of the string (up to its NUL), then one terminator unit. *)
Fixpoint message_signals (msg : cstring) : list Z :=
  match msg with
  | [] => char_signals 0
  | ch :: rest =>
      if ch =? 0 then char_signals 0 else char_signals ch ++ message_signals rest
  end.

Definition printable (ch : Z) : Prop := 32 <= ch <= 126.

(** The characters of a C string: those before its first NUL. *)
Fixpoint content (msg : cstring) : list Z :=
  match msg with
  | [] => []
  | ch :: rest => if ch =? 0 then [] else ch :: content rest
  end.

(** The positions [n-1 .. 0]. *)
Fixpoint down (n : nat) : list Z :=
  match n with
  | O => []
  | S n' => Z.of_nat n' :: down n'
  end.

Definition tag (pid : Z) (sigs : list Z) : list (Z * Z) := map (pair pid) sigs.

(** ** Environments *)

Definition all_ok (sys : list event -> event -> Z) : Prop :=
  forall h e, sys h e <> -1.

Definition acks_arrive (ack_after : list event -> option nat) : Prop :=
  forall h, ack_after h <> None.

(** An environment in which every call returns 0 and every acknowledgment
    is there at the first poll. *)
Definition sys_ok : list event -> event -> Z := fun _ _ => 0.

Definition ack_now : list event -> option nat := fun _ => Some 0%nat.

(** An environment in which the [n]-th call of the process (counting every
    event) fails and all others succeed. *)
Definition sys_fail_at (n : nat) : list event -> event -> Z :=
  fun h _ => if Nat.eqb (List.length h) n then -1 else 0.

(** What [sys_error] leaves on the trace. *)
Definition report (error_message : string) : list event :=
  [Fprintf_stderr ("Error: " ++ error_message ++ nl); Perror "System call error"].

(** ** The receiver seen from its accumulator *)

(** The byte [process_character] writes for the accumulator [c1]. *)
Definition byte_out (c1 : Z) : Z := if c1 =? 0 then NL else c1.

(** The [write] calls of a trace. *)
Definition writes (t : list event) : list event :=
  filter (fun e => match e with Write _ _ => true | _ => false end) t.

(** One notification seen from the accumulator [(bit, c)]: what the handler
    leaves in it and what it writes when no call fails. *)
Definition acc_next (sig : Z) (a : Z * Z) : Z * Z :=
  let '(b1, c1) := handle_received_bit sig (fst a) (snd a) in
  if b1 <? 0 then (7, 0) else (b1, c1).

Definition acc_out (sig : Z) (a : Z * Z) : list Z :=
  let '(b1, c1) := handle_received_bit sig (fst a) (snd a) in
  if b1 <? 0 then [byte_out c1] else [].

Definition acc_run (sigs : list Z) (a : Z * Z) : Z * Z :=
  fold_left (fun a sig => acc_next sig a) sigs a.

Fixpoint outs (sigs : list Z) (a : Z * Z) : list Z :=
  match sigs with
  | [] => []
  | sig :: rest => acc_out sig a ++ outs rest (acc_next sig a)
  end.

(** The accumulator without the byte-completion step: [handle_received_bit]
    iterated. *)
Definition bits_run (sigs : list Z) (a : Z * Z) : Z * Z :=
  fold_left (fun a sig => handle_received_bit sig (fst a) (snd a)) sigs a.

(** The states of the receiver between two invocations: the counter is in
    [0..7] and the accumulator has no bit at or below the counter. *)
Definition well_formed (st : server) : Prop :=
  0 <= bit st <= 7 /\ is_char (c st) /\ Z.land (c st) (Z.ones (bit st + 1)) = 0.

(** Following the claim: a unit is built by OR-ing [2^position] for the
    positions at which SIGUSR1 arrives; any other signal leaves the
    accumulator as it is. *)
Definition handle_received_bit_or (sig : Z) (bit c : Z) : Z * Z :=
  (bit - 1, if sig =? SIGUSR1 then to_char (Z.lor c (2 ^ bit)) else c).

Definition signal_handler_or (sys : list event -> event -> Z) (sig si_pid : Z)
  : M server unit :=
  modify (fun st => mkServer (bit st) (c st) si_pid) ;;
  modify (fun st => let '(bit1, c1) := handle_received_bit_or sig (bit st) (c st) in
                    mkServer bit1 c1 (g_client_pid st)) ;;
  st <- get ;;
  cb <- process_character sys (c st) (bit st) ;;
  modify (fun st => mkServer (snd cb) (fst cb) (g_client_pid st)) ;;
  st <- get ;;
  r <- call sys (Kill (g_client_pid st) SIGUSR1) ;;
  if r =? -1 then sys_error "Server: ACK failed" else ret tt.

Fixpoint deliver_or (sys : list event -> event -> Z) (ns : list (Z * Z)) : M server unit :=
  match ns with
  | [] => ret tt
  | (sig, pid) :: rest => signal_handler_or sys sig pid ;; deliver_or sys rest
  end.

(** The OR of [2^position] over the signals of a unit that are SIGUSR1, the
    first signal being at position [pos]. *)
Fixpoint or_positions (sigs : list Z) (pos : Z) : Z :=
  match sigs with
  | [] => 0
  | sig :: rest =>
      Z.lor (if sig =? SIGUSR1 then 2 ^ pos else 0) (or_positions rest (pos - 1))
  end.

(** ** Command lines for the examples *)

(** The characters of a literal. *)
Definition cstr (s : string) : cstring :=
  map (fun a => Z.of_nat (nat_of_ascii a)) (list_ascii_of_string s).

(** A conversion to put for [ft_atoi] in the examples: C's [atoi] (blanks,
    an optional sign, decimal digits), without the overflow of [int]. *)
Definition is_space (ch : Z) : bool := (ch =? 32) || ((9 <=? ch) && (ch <=? 13)).

Fixpoint atoi_digits (acc : Z) (s : cstring) : Z :=
  match s with
  | ch :: rest =>
      if (48 <=? ch) && (ch <=? 57) then atoi_digits (acc * 10 + (ch - 48)) rest else acc
  | [] => acc
  end.

Fixpoint atoi (s : cstring) : Z :=
  match s with
  | ch :: rest =>
      if is_space ch then atoi rest
      else if ch =? 45 then - atoi_digits 0 rest
      else if ch =? 43 then atoi_digits 0 rest
      else atoi_digits 0 s
  | [] => 0
  end.

(** The events of a trace that write to standard output. *)
Definition to_stdout (e : event) : bool :=
  match e with
  | Write fd _ | Putstr_fd _ fd => fd =? STDOUT_FILENO
  | Printf _ _ => true
  | _ => false
  end.

(** ** Stopping at the first failure *)

Section Fail_stop_def.

Variable sys : list event -> event -> Z.

(** No call of [t], made after the history [h], fails. *)
Fixpoint clean (h t : list event) : Prop :=
  match t with
  | [] => True
  | e :: t' => (fallible e = true -> sys h e <> -1) /\ clean (h ++ [e]) t'
  end.

(** [t] ends with a failing call and the report of [sys_error]. *)
Definition aborted (h t : list event) : Prop :=
  exists t0 e msg,
    t = t0 ++ e :: report msg
    /\ clean h t0 /\ fallible e = true /\ sys (h ++ t0) e = -1.

(** A computation that stops at the first call that fails. *)
Definition fail_stop {S A} (m : M S A) : Prop :=
  forall s h, exists t,
    trace_of (m s h) = h ++ t
    /\ (clean h t \/ (aborted h t /\ result (m s h) = Exit EXIT_FAILURE)).

End Fail_stop_def.

(** A run stops at the first failing call: it reports and exits. *)
Definition stops_at_failure (sys : list event -> event -> Z) {A S}
    (r : outcome A * S * list event) (h : list event) : Prop :=
  (exists t, trace_of r = h ++ t)
  /\ forall t1 e t2,
       trace_of r = h ++ t1 ++ e :: t2 ->
       fallible e = true -> sys (h ++ t1) e = -1 ->
       result r = Exit EXIT_FAILURE
       /\ exists msg,
            t2 = [Fprintf_stderr ("Error: " ++ msg ++ nl); Perror "System call error"].

(** ** Checks to run on every character

    A [char] has 256 values and a unit 8 positions: what holds of each of
    them is checked by evaluation on all of them. *)

(** The integers [lo .. lo + n - 1]. *)
Definition zrange (lo : Z) (n : nat) : list Z :=
  map (fun k => lo + Z.of_nat k) (seq 0 n).

Definition all_chars : list Z := zrange (-128) 256.

Definition all_bits : list Z := zrange 0 8.

(** The signals of [ch] leave the accumulator reset, one byte written. *)
Definition check_unit (ch : Z) : bool :=
  let a := acc_run (char_signals ch) (7, 0) in
  (fst a =? 7) && (snd a =? 0) &&
  match outs (char_signals ch) (7, 0) with
  | [x] => x =? byte_out ch
  | _ => false
  end.

(** After [k] signals of [ch], the counter and bit [j] of the accumulator. *)
Definition check_fill (ch k j : Z) : bool :=
  let a := bits_run (firstn (Z.to_nat k) (char_signals ch)) (7, 0) in
  (fst a =? 7 - k) && Bool.eqb (Z.testbit (snd a) j) ((7 - k <? j) && Z.testbit ch j).

(** The eight signals of [ch] rebuild [ch]. *)
Definition check_whole (ch : Z) : bool :=
  let a := bits_run (char_signals ch) (7, 0) in
  (fst a =? -1) && (snd a =? ch).

(** SIGUSR2 at position [b] of the accumulator [a]: bit [b] cleared, bit
    [j] kept, the result a [char]. *)
Definition check_clear (a b j : Z) : bool :=
  let a' := snd (handle_received_bit SIGUSR2 b a) in
  negb (Z.testbit a' b)
  && (if j =? b then true else Bool.eqb (Z.testbit a' j) (Z.testbit a j))
  && (-128 <=? a') && (a' <=? 127).

(** An accumulator [a] with no bit at or below [b]: SIGUSR2 leaves it as it
    is, SIGUSR1 ORs [2^b] into it, and no bit is then below [b]. *)
Definition check_step (a b : Z) : bool :=
  implb (Z.land a (Z.ones (b + 1)) =? 0)
    ((snd (handle_received_bit SIGUSR2 b a) =? a)
     && (Z.land a (Z.ones b) =? 0)
     && (let a1 := snd (handle_received_bit SIGUSR1 b a) in
         (a1 =? to_char (Z.lor a (2 ^ b)))
         && (-128 <=? a1) && (a1 <=? 127) && (Z.land a1 (Z.ones b) =? 0))).

(** * The sender with its acknowledgment handler running asynchronously

    [send_message] and [send_char_bits] statement by statement, as a
    transition system: the program moves from one control point to the next,
    and at any moment the environment may run [ack_handler]. *)

Module Async.

(** The control points of [send_message] and [send_char_bits]. *)
Inductive pc :=
| Msg_test                  (* while ( *msg)               in send_message *)
| Bit_test                  (* while (bit >= 0) *)
| Clear_ack                 (* g_ack_received = 0; *)
| Send_bit                  (* if ((c >> bit--) & 1) kill(..) else kill(..) *)
| Poll_ack                  (* while (!g_ack_received) *)
| Sleep_poll                (*     usleep(100); *)
| Sleep_after               (* usleep(100); *)
| Returned                  (* send_message has returned *)
| Exited (status : Z).      (* exit(status) in sys_error *)

(** What an observer of the sender sees. *)
Inductive obs :=
| Cleared                   (* the flag was cleared *)
| Sent (pid sig : Z)        (* kill(pid, sig) was called *)
| Read (flag : Z)           (* the polling loop read the flag *)
| Slept                     (* usleep(100) *)
| Handled                   (* ack_handler ran *)
| Reported (msg : string).  (* sys_error(msg) *)

Record sender := mkSender {
  at_pc : pc;
  target : Z;               (* pid *)
  msg : cstring;            (* what msg points to *)
  final : bool;             (* inside send_char_bits(pid, 0), the last call *)
  ch : Z;                   (* c of send_char_bits *)
  bit : Z;                  (* bit of send_char_bits *)
  g_ack_received : Z;
  log : list obs
}.

Definition start (pid : Z) (m : cstring) : sender :=
  mkSender Msg_test pid m false 0 0 0 [].

Definition goto (p : pc) (s : sender) : sender :=
  mkSender p (target s) (msg s) (final s) (ch s) (bit s) (g_ack_received s) (log s).

Definition note (o : obs) (s : sender) : sender :=
  mkSender (at_pc s) (target s) (msg s) (final s) (ch s) (bit s) (g_ack_received s)
    (log s ++ [o]).

Definition set_ack (v : Z) (s : sender) : sender :=
  mkSender (at_pc s) (target s) (msg s) (final s) (ch s) (bit s) v (log s).

Definition set_bit (b : Z) (s : sender) : sender :=
  mkSender (at_pc s) (target s) (msg s) (final s) (ch s) b (g_ack_received s) (log s).

(** Entering [send_char_bits(pid, c0)] with [msg] advanced to [rest]. *)
Definition enter (c0 : Z) (rest : cstring) (last : bool) (s : sender) : sender :=
  mkSender Bit_test (target s) rest last c0 7 (g_ack_received s) (log s).

(** [ack_handler(sig)]. *)
Definition ack_handler (sig : Z) (s : sender) : sender :=
  note Handled (set_ack 1 s).

(** One statement of the program; [kill_result] is what [kill] returns if
    the statement calls it. *)
Definition program_step (kill_result : Z) (s : sender) : option sender :=
  match at_pc s with
  | Msg_test =>
      match msg s with
      | c0 :: rest =>
          if c0 =? 0 then Some (enter 0 (msg s) true s)
          else Some (enter c0 rest false s)
      | [] => Some (enter 0 (msg s) true s)
      end
  | Bit_test =>
      if bit s >=? 0 then Some (goto Clear_ack s)
      else if final s then Some (goto Returned s)
      else Some (goto Msg_test s)
  | Clear_ack => Some (goto Send_bit (note Cleared (set_ack 0 s)))
  | Send_bit =>
      let one := negb (Z.land (Z.shiftr (ch s) (bit s)) 1 =? 0) in
      let sig := if one then SIGUSR1 else SIGUSR2 in
      let s' := note (Sent (target s) sig) (set_bit (bit s - 1) s) in
      if kill_result =? -1 then
        Some (goto (Exited EXIT_FAILURE)
                (note (Reported (if one then "Failed to send SIGUSR1"
                                 else "Failed to send SIGUSR2")) s'))
      else Some (goto Poll_ack s')
  | Poll_ack =>
      let s' := note (Read (g_ack_received s)) s in
      if g_ack_received s =? 0 then Some (goto Sleep_poll s')
      else Some (goto Sleep_after s')
  | Sleep_poll => Some (goto Poll_ack (note Slept s))
  | Sleep_after => Some (goto Bit_test (note Slept s))
  | Returned => None
  | Exited _ => None
  end.

Definition running (s : sender) : Prop :=
  match at_pc s with
  | Returned | Exited _ => False
  | _ => True
  end.

Inductive step : sender -> sender -> Prop :=
| step_program r s s' : program_step r s = Some s' -> step s s'
| step_signal sig s : running s -> step s (ack_handler sig s).

Inductive reachable (s0 : sender) : sender -> Prop :=
| reach_start : reachable s0 s0
| reach_step s s' : reachable s0 s -> step s s' -> reachable s0 s'.

(** A scheduler to run the system with: the acknowledgment is delivered
    when the sender polls with the flag clear, every [kill] succeeds. *)
Definition fair_step (s : sender) : option sender :=
  match at_pc s with
  | Poll_ack => if g_ack_received s =? 0 then Some (ack_handler SIGUSR1 s)
                else program_step 0 s
  | _ => program_step 0 s
  end.

Fixpoint fair (n : nat) (s : sender) : sender :=
  match n with
  | O => s
  | S n' => match fair_step s with
            | Some s' => fair n' s'
            | None => s
            end
  end.

(** A schedule: at each step a statement of the program, with the result
    of [kill] should it call it, or the delivery of a signal. *)
Inductive choice :=
| Program (kill_result : Z)
| Signal (sig : Z).

Fixpoint run (sched : list choice) (s : sender) : sender :=
  match sched with
  | [] => s
  | Program r :: rest =>
      match program_step r s with
      | Some s' => run rest s'
      | None => s
      end
  | Signal sig :: rest =>
      match at_pc s with
      | Returned | Exited _ => s
      | _ => run rest (ack_handler sig s)
      end
  end.

(** ** Stop and wait, as an automaton over the observations *)

(** Between two bits; flag cleared and bit not yet sent; bit sent and not
    yet seen acknowledged. [acked] tells whether the handler has run since
    the flag was last cleared. *)
Inductive flow :=
| Idle
| Armed (acked : bool)
| In_flight (acked : bool).

Definition flow_step (q : flow) (o : obs) : option flow :=
  match o, q with
  | Cleared, Idle => Some (Armed false)
  | Cleared, _ => None
  | Sent _ _, Armed a => Some (In_flight a)
  | Sent _ _, _ => None
  | Read f, In_flight a =>
      if f =? 0 then Some (In_flight a) else if a then Some Idle else None
  | Read _, _ => None
  | Handled, Idle => Some Idle
  | Handled, Armed _ => Some (Armed true)
  | Handled, In_flight _ => Some (In_flight true)
  | Slept, _ => Some q
  | Reported _, _ => Some q
  end.

Fixpoint flow_run (q : flow) (l : list obs) : option flow :=
  match l with
  | [] => Some q
  | o :: l' => match flow_step q o with
               | Some q' => flow_run q' l'
               | None => None
               end
  end.

Definition flow_of (l : list obs) : option flow := flow_run Idle l.

Definition is_sent (o : obs) : bool := match o with Sent _ _ => true | _ => false end.

Definition is_seen (o : obs) : bool :=
  match o with Read f => negb (f =? 0) | _ => false end.

Definition is_cleared (o : obs) : bool := match o with Cleared => true | _ => false end.

(** Bits sent, acknowledgments seen, clearings of the flag. *)
Definition sent (l : list obs) : nat := List.length (filter is_sent l).

Definition seen (l : list obs) : nat := List.length (filter is_seen l).

Definition cleared (l : list obs) : nat := List.length (filter is_cleared l).

Definition sent_signals (l : list obs) : list (Z * Z) :=
  flat_map (fun o => match o with Sent pid sig => [(pid, sig)] | _ => [] end) l.

(** ** What the proofs keep track of *)

Definition pending (q : flow) : nat := match q with In_flight _ => 1 | _ => 0 end.

Definition armed (q : flow) : nat := match q with Armed _ => 1 | _ => 0 end.

(** What the automaton has seen, for each control point. *)
Definition agrees (q : flow) (s : sender) : Prop :=
  match at_pc s with
  | Msg_test | Bit_test | Clear_ack | Sleep_after | Returned => q = Idle
  | Send_bit => exists a, q = Armed a /\ (g_ack_received s <> 0 -> a = true)
  | Poll_ack | Sleep_poll =>
      exists a, q = In_flight a /\ (g_ack_received s <> 0 -> a = true)
  | Exited _ => exists a, q = In_flight a
  end.

Definition position_signals (c0 : Z) (n : nat) : list Z :=
  map (fun i => signal_of_bit (Z.testbit c0 i)) (down n).

(** What the sender still has to send. *)
Definition remaining (s : sender) : list Z :=
  match at_pc s with
  | Msg_test => message_signals (msg s)
  | Returned => []
  | Exited _ => []
  | _ => position_signals (ch s) (Z.to_nat (bit s + 1))
         ++ (if final s then [] else message_signals (msg s))
  end.

Definition bit_in_range (s : sender) : Prop :=
  match at_pc s with
  | Clear_ack | Send_bit => 0 <= bit s <= 7
  | Msg_test | Returned | Exited _ => True
  | _ => -1 <= bit s <= 7
  end.

(** The signals sent so far are a prefix of the signals of the message, all
    sent to the target, and what follows them is [remaining]. *)
Definition on_course (pid : Z) (m : cstring) (s : sender) : Prop :=
  target s = pid /\ bit_in_range s
  /\ exists rest,
       tag pid (message_signals m) = sent_signals (log s) ++ tag pid rest
       /\ ((forall st, at_pc s <> Exited st) -> rest = remaining s).

End Async.

(** * The first argument of the sender *)








(** * Definitions for further properties *)

(** A computation all of whose calls satisfy [P] and all of whose returned
    values satisfy [Q]. *)
Definition emits_only {S A} (P : event -> Prop) (Q : A -> Prop) (m : M S A) : Prop :=
  forall s h, exists t,
    trace_of (m s h) = h ++ t
    /\ Forall P t
    /\ (forall a, result (m s h) = Ret a -> Q a).

(** Of a [kill]: it sends SIGUSR1 or SIGUSR2 to [pid], a positive id. *)
Definition bit_to (pid : Z) (e : event) : Prop :=
  match e with
  | Kill p sig => p = pid /\ 0 < pid /\ (sig = SIGUSR1 \/ sig = SIGUSR2)
  | _ => True
  end.

(** The calls of [ft_putstr_fd]. *)
Definition is_confirmation (e : event) : bool :=
  match e with
  | Putstr_fd _ _ => true
  | _ => false
  end.

(** The signals of several messages sent one after the other. *)
Definition session_signals (msgs : list cstring) : list Z :=
  flat_map message_signals msgs.

(** What the receiver writes for them. *)
Definition session_output (msgs : list cstring) : list Z :=
  flat_map (fun m => content m ++ [NL]) msgs.

(** The states of the stop-and-wait automaton in which the handler has not
    run since the flag was cleared. *)
Definition unacked (q : Async.flow) : Prop :=
  q = Async.Idle \/ q = Async.Armed false \/ q = Async.In_flight false.

(** SIGUSR1 at position [b] of the accumulator [a]: bit [b] set, bit [j]
    kept, the result a [char]. *)
Definition check_set (a b j : Z) : bool :=
  let a' := snd (handle_received_bit SIGUSR1 b a) in
  Z.testbit a' b
  && (if j =? b then true else Bool.eqb (Z.testbit a' j) (Z.testbit a j))
  && (-128 <=? a') && (a' <=? 127).

(** * Properties *)

(** ** Checking a property on every character *)

Lemma zrange_In lo n z : lo <= z < lo + Z.of_nat n -> In z (zrange lo n).
Proof.
  intros Hz. unfold zrange. apply in_map_iff.
  exists (Z.to_nat (z - lo)). split; [lia|].
  apply in_seq. lia.
Qed.

Lemma forallb_zrange (f : Z -> bool) lo n :
  forallb f (zrange lo n) = true ->
  forall z, lo <= z < lo + Z.of_nat n -> f z = true.
Proof.
  intros Hall z Hz. rewrite forallb_forall in Hall.
  apply Hall, zrange_In, Hz.
Qed.

Lemma for_all_chars (f : Z -> bool) :
  forallb f all_chars = true -> forall ch, is_char ch -> f ch = true.
Proof.
  intros Hall ch Hc. apply (forallb_zrange f (-128) 256 Hall).
  unfold is_char in Hc. lia.
Qed.

Lemma for_all_bits (f : Z -> bool) :
  forallb f all_bits = true -> forall i, 0 <= i <= 7 -> f i = true.
Proof.
  intros Hall i Hi. apply (forallb_zrange f 0 8 Hall). lia.
Qed.

(** ** The monad *)

Lemma bind_ret_run {S A B} (m : M S A) (k : A -> M S B) s h a s' h' :
  m s h = (Ret a, s', h') -> bind m k s h = k a s' h'.
Proof. intros E. unfold bind. rewrite E. reflexivity. Qed.

Lemma bind_exit_run {S A B} (m : M S A) (k : A -> M S B) s h st s' h' :
  m s h = (Exit st, s', h') -> bind m k s h = (Exit st, s', h').
Proof. intros E. unfold bind. rewrite E. reflexivity. Qed.

Lemma bind_hang_run {S A B} (m : M S A) (k : A -> M S B) s h s' h' :
  m s h = (Hang, s', h') -> bind m k s h = (Hang, s', h').
Proof. intros E. unfold bind. rewrite E. reflexivity. Qed.

Lemma bind_ret_inv {S A B} (m : M S A) (k : A -> M S B) s h v :
  result (bind m k s h) = Ret v ->
  exists a s1 h1, m s h = (Ret a, s1, h1) /\ bind m k s h = k a s1 h1.
Proof.
  unfold bind. destruct (m s h) as [[[a|x|] s1] h1]; unfold result; cbn [fst];
    intros E; try discriminate.
  exists a, s1, h1. auto.
Qed.

Lemma sys_error_run {S A} msg (s : S) h :
  @sys_error S A msg s h = (Exit EXIT_FAILURE, s, h ++ report msg).
Proof. unfold sys_error, bind, emit, exit, report. rewrite <- app_assoc. reflexivity. Qed.

Lemma signals_sent_app t1 t2 :
  signals_sent (t1 ++ t2) = signals_sent t1 ++ signals_sent t2.
Proof. apply flat_map_app. Qed.

Lemma kills_app t1 t2 : kills (t1 ++ t2) = kills t1 ++ kills t2.
Proof. apply flat_map_app. Qed.

Lemma written_app fd t1 t2 : written fd (t1 ++ t2) = written fd t1 ++ written fd t2.
Proof. apply flat_map_app. Qed.

(** ** The receiver's handler, case by case *)

Lemma signal_handler_run sys sig pid st h :
  let b1 := bit st - 1 in
  let c1 := snd (handle_received_bit sig (bit st) (c st)) in
  let w := Write 1 [byte_out c1] in
  let k := Kill pid SIGUSR1 in
  signal_handler sys sig pid st h =
    if b1 <? 0 then
      if sys h w =? -1 then
        (Exit EXIT_FAILURE, mkServer b1 c1 pid, h ++ [w] ++ report "Server: write failed")
      else if sys (h ++ [w]) k =? -1 then
        (Exit EXIT_FAILURE, mkServer 7 0 pid, h ++ [w; k] ++ report "Server: ACK failed")
      else (Ret tt, mkServer 7 0 pid, h ++ [w; k])
    else
      if sys h k =? -1 then
        (Exit EXIT_FAILURE, mkServer b1 c1 pid, h ++ [k] ++ report "Server: ACK failed")
      else (Ret tt, mkServer b1 c1 pid, h ++ [k]).
Proof.
  cbv zeta. unfold signal_handler, handle_received_bit, process_character, byte_out.
  unfold bind at 1. unfold modify at 1.
  unfold bind at 1. unfold modify at 1. cbn [bit c g_client_pid fst snd].
  set (c1 := if sig =? SIGUSR1 then _ else _).
  unfold bind at 1. unfold get at 1. cbn [bit c g_client_pid].
  destruct (bit st - 1 <? 0) eqn:Eb.
  - destruct (c1 =? 0) eqn:Ec.
    + unfold bind, call, ret, modify, get. cbn.
      destruct (sys h (Write 1 [NL]) =? -1) eqn:Ew.
      * rewrite sys_error_run. rewrite <- app_assoc. reflexivity.
      * cbn. destruct (sys ((h ++ [Write 1 [NL]])) (Kill pid SIGUSR1) =? -1) eqn:Ek.
        -- rewrite sys_error_run. rewrite <- !app_assoc. reflexivity.
        -- rewrite <- !app_assoc. reflexivity.
    + unfold bind, call, ret, modify, get. cbn.
      destruct (sys h (Write 1 [c1]) =? -1) eqn:Ew.
      * rewrite sys_error_run. rewrite <- app_assoc. reflexivity.
      * cbn. destruct (sys ((h ++ [Write 1 [c1]])) (Kill pid SIGUSR1) =? -1) eqn:Ek.
        -- rewrite sys_error_run. rewrite <- !app_assoc. reflexivity.
        -- rewrite <- !app_assoc. reflexivity.
  - unfold bind, call, ret, modify, get. cbn.
    destruct (sys h (Kill pid SIGUSR1) =? -1) eqn:Ek.
    + rewrite sys_error_run. rewrite <- app_assoc. reflexivity.
    + reflexivity.
Qed.

(** ** The accumulator alone *)

Lemma acc_run_app s1 s2 a : acc_run (s1 ++ s2) a = acc_run s2 (acc_run s1 a).
Proof. apply fold_left_app. Qed.

Lemma outs_app s1 s2 a : outs (s1 ++ s2) a = outs s1 a ++ outs s2 (acc_run s1 a).
Proof.
  revert a. induction s1 as [|sig s1 IH]; intros a; cbn.
  - reflexivity.
  - rewrite IH, app_assoc. reflexivity.
Qed.

(** The handler, when no call fails, is [acc_next] and [acc_out]. *)
Lemma signal_handler_ok sys sig pid st h :
  all_ok sys ->
  exists st' h',
    signal_handler sys sig pid st h = (Ret tt, st', h')
    /\ (bit st', c st') = acc_next sig (bit st, c st)
    /\ g_client_pid st' = pid
    /\ written 1 h' = written 1 h ++ acc_out sig (bit st, c st)
    /\ kills h' = kills h ++ [(pid, SIGUSR1)].
Proof.
  intros Hok. rewrite signal_handler_run. cbv zeta.
  unfold acc_next, acc_out, handle_received_bit. cbn [fst snd].
  set (c1 := if sig =? SIGUSR1 then _ else _).
  destruct (bit st - 1 <? 0) eqn:Eb.
  - destruct (Z.eqb_spec (sys h (Write 1 [byte_out c1])) (-1)) as [E|_];
      [exfalso; exact (Hok _ _ E)|].
    destruct (Z.eqb_spec (sys (h ++ [Write 1 [byte_out c1]]) (Kill pid SIGUSR1)) (-1)) as [E|_];
      [exfalso; exact (Hok _ _ E)|].
    eexists _, _. split; [reflexivity|].
    rewrite written_app, kills_app. cbn. auto.
  - destruct (Z.eqb_spec (sys h (Kill pid SIGUSR1)) (-1)) as [E|_];
      [exfalso; exact (Hok _ _ E)|].
    eexists _, _. split; [reflexivity|].
    rewrite written_app, kills_app. cbn. auto.
Qed.

Lemma deliver_ok sys (Hok : all_ok sys) ns :
  forall st h,
  exists st' h',
    deliver sys ns st h = (Ret tt, st', h')
    /\ (bit st', c st') = acc_run (map fst ns) (bit st, c st)
    /\ written 1 h' = written 1 h ++ outs (map fst ns) (bit st, c st)
    /\ kills h' = kills h ++ map (fun n => (snd n, SIGUSR1)) ns.
Proof.
  induction ns as [|[sig pid] ns IH]; intros st h; cbn [deliver map].
  - exists st, h. cbn. rewrite !app_nil_r. auto.
  - destruct (signal_handler_ok sys sig pid st h Hok)
      as (st1 & h1 & Erun & Eacc & _ & Ew & Ek).
    destruct (IH st1 h1) as (st2 & h2 & Erun2 & Eacc2 & Ew2 & Ek2).
    exists st2, h2. rewrite (bind_ret_run _ _ _ _ _ _ _ Erun).
    split; [exact Erun2|]. cbn [acc_run fold_left outs fst snd].
    rewrite Eacc in Eacc2, Ew2.
    split; [exact Eacc2|]. split.
    + rewrite Ew2, Ew, app_assoc. reflexivity.
    + rewrite Ek2, Ek, <- app_assoc. reflexivity.
Qed.

(** ** One unit through the accumulator *)

Lemma unit_checked : forallb check_unit all_chars = true.
Proof. vm_compute. reflexivity. Qed.

Lemma unit_received ch :
  is_char ch ->
  acc_run (char_signals ch) (7, 0) = (7, 0)
  /\ outs (char_signals ch) (7, 0) = [byte_out ch].
Proof.
  intros Hc.
  pose proof (for_all_chars check_unit unit_checked ch Hc) as H.
  unfold check_unit in H.
  destruct (acc_run (char_signals ch) (7, 0)) as [b a].
  destruct (outs (char_signals ch) (7, 0)) as [|x [|y l]];
    cbn [fst snd] in H; rewrite ?andb_false_r in H; try discriminate.
  apply andb_prop in H as [H Hx]. apply andb_prop in H as [Hb Ha].
  apply Z.eqb_eq in Hx, Hb, Ha. subst. auto.
Qed.

Lemma content_no_nul msg : Forall (fun ch => ch <> 0) msg -> content msg = msg.
Proof.
  induction 1 as [|ch rest Hc _ IH]; cbn; [reflexivity|].
  destruct (Z.eqb_spec ch 0); [contradiction|]. rewrite IH. reflexivity.
Qed.

Lemma message_received msg :
  Forall is_char msg ->
  acc_run (message_signals msg) (7, 0) = (7, 0)
  /\ outs (message_signals msg) (7, 0) = content msg ++ [NL].
Proof.
  assert (Hz : is_char 0) by (unfold is_char; lia).
  induction 1 as [|ch rest Hc _ IH]; cbn [message_signals content].
  - apply (unit_received 0 Hz).
  - destruct (Z.eqb_spec ch 0) as [E|E].
    + apply (unit_received 0 Hz).
    + destruct (unit_received ch Hc) as [Ea Eo]. destruct IH as [IHa IHo].
      rewrite acc_run_app, outs_app, Ea, Eo, IHo. split; [exact IHa|].
      unfold byte_out. destruct (Z.eqb_spec ch 0); [contradiction|]. reflexivity.
Qed.

(** ** The sender when nothing fails *)

(** The test [(c >> bit) & 1] reads bit [bit] of [c]. *)
Lemma shift_and_testbit ch i :
  0 <= i -> negb (Z.land (Z.shiftr ch i) 1 =? 0) = Z.testbit ch i.
Proof.
  intros Hi. change 1 with (Z.ones 1) at 1.
  rewrite Z.land_ones by lia. rewrite Z.shiftr_div_pow2 by lia.
  change (2 ^ 1) with 2.
  pose proof (Z.testbit_spec' ch i Hi) as Hb.
  rewrite <- Hb. destruct (Z.testbit ch i); reflexivity.
Qed.

Section Sender_ok.

Variable sys : list event -> event -> Z.

Variable ack_after : list event -> option nat.

Hypothesis Hok : all_ok sys.

Hypothesis Hack : acks_arrive ack_after.

Lemma wait_for_ack_ok s h :
  exists n, wait_for_ack ack_after s h = (Ret tt, mkClient 1, h ++ repeat (Usleep 100) n).
Proof.
  unfold wait_for_ack. destruct (ack_after h) as [n|] eqn:E.
  - exists n. reflexivity.
  - exfalso. exact (Hack h E).
Qed.

Lemma kills_usleep n : kills (repeat (Usleep 100) n) = [].
Proof. induction n; cbn; auto. Qed.

Lemma send_char_loop_ok pid ch n :
  forall s h,
  exists s' h',
    send_char_loop sys ack_after pid ch n s h = (Ret tt, s', h')
    /\ kills h' = kills h ++ tag pid (map (fun i => signal_of_bit (Z.testbit ch i)) (down n)).
Proof.
  induction n as [|n IH]; intros s h; cbn [send_char_loop down map tag].
  - exists s, h. cbn. rewrite app_nil_r. auto.
  - rewrite shift_and_testbit by lia.
    set (sig := signal_of_bit (Z.testbit ch (Z.of_nat n))).
    assert (Ekill :
      (if Z.testbit ch (Z.of_nat n)
       then r <- call sys (Kill pid SIGUSR1) ;;
            (if r =? -1 then sys_error "Failed to send SIGUSR1" else ret tt)
       else r <- call sys (Kill pid SIGUSR2) ;;
            (if r =? -1 then sys_error "Failed to send SIGUSR2" else ret tt))
        (mkClient 0) h = (Ret tt, mkClient 0, h ++ [Kill pid sig])).
    { unfold sig, signal_of_bit. destruct (Z.testbit ch (Z.of_nat n));
        unfold bind, call, ret;
        match goal with
        | |- context [sys h ?e =? -1] =>
            destruct (Z.eqb_spec (sys h e) (-1)) as [E|_];
              [exfalso; exact (Hok _ _ E) | reflexivity]
        end. }
    destruct (wait_for_ack_ok (mkClient 0) (h ++ [Kill pid sig])) as [k Ewait].
    destruct (IH (mkClient 1) ((h ++ [Kill pid sig]) ++ repeat (Usleep 100) k ++ [Usleep 100]))
      as (s' & h' & Erec & Ekills).
    exists s', h'. split.
    + unfold bind at 1. unfold put at 1.
      rewrite (bind_ret_run _ _ _ _ _ _ _ Ekill).
      rewrite (bind_ret_run _ _ _ _ _ _ _ Ewait).
      unfold bind at 1. unfold emit at 1.
      rewrite <- app_assoc. exact Erec.
    + rewrite Ekills. rewrite !kills_app, kills_usleep.
      rewrite <- !app_assoc. reflexivity.
Qed.

Lemma send_char_bits_ok pid ch s h :
  exists s' h',
    send_char_bits sys ack_after pid ch s h = (Ret tt, s', h')
    /\ kills h' = kills h ++ tag pid (char_signals ch).
Proof. exact (send_char_loop_ok pid ch 8 s h). Qed.

Lemma send_message_ok pid msg :
  forall s h,
  exists s' h',
    send_message sys ack_after pid msg s h = (Ret tt, s', h')
    /\ kills h' = kills h ++ tag pid (message_signals msg).
Proof.
  induction msg as [|ch rest IH]; intros s h; cbn [send_message message_signals].
  - apply send_char_bits_ok.
  - destruct (ch =? 0).
    + apply send_char_bits_ok.
    + destruct (send_char_bits_ok pid ch s h) as (s1 & h1 & E1 & K1).
      destruct (IH s1 h1) as (s2 & h2 & E2 & K2).
      exists s2, h2. rewrite (bind_ret_run _ _ _ _ _ _ _ E1).
      split; [exact E2|]. rewrite K2, K1. unfold tag.
      rewrite map_app, app_assoc. reflexivity.
Qed.

End Sender_ok.

Lemma signals_of_kills t : signals_sent t = map snd (kills t).
Proof.
  induction t as [|e t IH]; cbn; [reflexivity|].
  unfold signals_sent in IH. destruct e; cbn; rewrite ?IH; reflexivity.
Qed.

Lemma map_snd_tag pid sigs : map snd (tag pid sigs) = sigs.
Proof. unfold tag. rewrite map_map. cbn. apply map_id. Qed.

Lemma map_fst_from (pid : Z) (sigs : list Z) :
  map fst (map (fun sg => (sg, pid)) sigs) = sigs.
Proof. rewrite map_map. cbn. apply map_id. Qed.

Lemma printable_is_char msg : Forall printable msg -> Forall is_char msg.
Proof. apply Forall_impl. unfold printable, is_char. lia. Qed.

Lemma printable_no_nul msg : Forall printable msg -> Forall (fun ch => ch <> 0) msg.
Proof. apply Forall_impl. unfold printable. lia. Qed.

Lemma message_signals_content msg :
  message_signals msg = flat_map char_signals (content msg) ++ repeat SIGUSR2 8.
Proof.
  induction msg as [|ch rest IH]; cbn [message_signals content flat_map].
  - reflexivity.
  - destruct (ch =? 0); [reflexivity|].
    cbn [flat_map]. rewrite IH, app_assoc. reflexivity.
Qed.

(** The receiver, from any state between two units, on the signals of a
    whole message. *)
Lemma receive_message sys from msg st h :
  all_ok sys -> Forall is_char msg -> bit st = 7 -> c st = 0 ->
  exists st' h',
    deliver sys (map (fun sg => (sg, from)) (message_signals msg)) st h = (Ret tt, st', h')
    /\ bit st' = 7 /\ c st' = 0
    /\ written 1 h' = written 1 h ++ content msg ++ [NL].
Proof.
  intros Hok Hmsg Hb Hc.
  destruct (deliver_ok sys Hok (map (fun sg => (sg, from)) (message_signals msg)) st h)
    as (st' & h' & Erun & Eacc & Ew & _).
  rewrite map_fst_from, Hb, Hc in Eacc, Ew.
  destruct (message_received msg Hmsg) as [Ea Eo].
  rewrite Ea in Eacc. rewrite Eo in Ew. inversion Eacc.
  exists st', h'. auto.
Qed.

(** Discharges the assumptions on the environments [sys_ok] and [ack_now]. *)
Ltac env_ok :=
  match goal with
  | |- all_ok _ => intros ? ?; unfold sys_ok; discriminate
  | |- acks_arrive _ => intros ?; unfold ack_now; discriminate
  end.

(** ** Round trip *)

(** C1. Round trip: for every printable-ASCII string [msg], the empty one
    included, the signals the sender emits for [msg], delivered in order to
    the receiver's handler, make the receiver write exactly the characters
    of [msg], in order, then one newline. *)
Theorem round_trip csys ack_after ssys pid from msg :
  Forall printable msg ->
  all_ok csys -> acks_arrive ack_after -> all_ok ssys ->
  let sent := signals_sent (trace_of (send_message csys ack_after pid msg client_init [])) in
  let r := deliver ssys (map (fun sg => (sg, from)) sent) server_init [] in
  result r = Ret tt
  /\ written STDOUT_FILENO (trace_of r) = msg ++ [NL].
Proof.
  intros Hp Hc Ha Hs sent r.
  destruct (send_message_ok csys ack_after Hc Ha pid msg client_init [])
    as (s' & h' & Esend & Ekills).
  assert (Esent : sent = message_signals msg).
  { unfold sent. rewrite Esend. unfold trace_of. cbn [snd].
    rewrite signals_of_kills, Ekills. cbn [kills flat_map app].
    apply map_snd_tag. }
  destruct (receive_message ssys from msg server_init [] Hs (printable_is_char _ Hp)
              eq_refl eq_refl) as (st' & t & Erun & _ & _ & Ew).
  unfold r. rewrite Esent, Erun. unfold result, trace_of. cbn [fst snd].
  split; [reflexivity|].
  unfold STDOUT_FILENO. rewrite Ew, (content_no_nul _ (printable_no_nul _ Hp)).
  reflexivity.
Qed.

(** The message Hi and the empty message, sent and received. *)
Lemma round_trip_witness :
  written STDOUT_FILENO
    (trace_of (deliver sys_ok
       (map (fun sg => (sg, 77))
          (signals_sent (trace_of (send_message sys_ok ack_now 4242 [72; 105] client_init []))))
       server_init []))
  = [72; 105; NL]
  /\ written STDOUT_FILENO
       (trace_of (deliver sys_ok
          (map (fun sg => (sg, 77))
             (signals_sent (trace_of (send_message sys_ok ack_now 4242 [] client_init []))))
          server_init []))
     = [NL].
Proof.
  split.
  - apply (round_trip sys_ok ack_now sys_ok 4242 77 [72; 105]); try env_ok.
    repeat constructor; unfold printable; lia.
  - apply (round_trip sys_ok ack_now sys_ok 4242 77 []); try env_ok.
    constructor.
Defined.

(** ** Bit order *)

Lemma fill_checked :
  forallb (fun ch =>
    forallb (fun k => forallb (check_fill ch k) all_bits) (zrange 0 9)) all_chars = true.
Proof. vm_compute. reflexivity. Qed.

Lemma whole_checked : forallb check_whole all_chars = true.
Proof. vm_compute. reflexivity. Qed.

(** After the first [k] signals of a unit, the counter is at [7 - k] and the
    accumulator holds the bits of the character at the positions above
    [7 - k], and zeros below. *)
Lemma unit_filled ch (k : nat) j :
  is_char ch -> (k <= 8)%nat -> 0 <= j <= 7 ->
  let a := bits_run (firstn k (char_signals ch)) (7, 0) in
  fst a = 7 - Z.of_nat k
  /\ Z.testbit (snd a) j = (7 - Z.of_nat k <? j) && Z.testbit ch j.
Proof.
  intros Hc Hk Hj.
  pose proof (for_all_chars _ fill_checked ch Hc) as H1. cbv beta in H1.
  pose proof (forallb_zrange _ 0 9 H1 (Z.of_nat k) ltac:(lia)) as H2. cbv beta in H2.
  pose proof (for_all_bits _ H2 j Hj) as H3.
  unfold check_fill in H3. rewrite Nat2Z.id in H3.
  apply andb_prop in H3 as [Hb Ht].
  apply Z.eqb_eq in Hb. apply Bool.eqb_prop in Ht. auto.
Qed.

(** C2. The sender emits the 8 bits of every character from position 7
    down to position 0, SIGUSR1 for a 1 bit and SIGUSR2 for a 0 bit, all to
    the target id, and after the content of the message the 8 bits of one
    all-zero terminator unit; the receiver fills the same positions in the
    same order and so reconstructs the character. *)
Theorem msb_first_encoding :
  (forall ch,
     char_signals ch =
       [signal_of_bit (Z.testbit ch 7); signal_of_bit (Z.testbit ch 6);
        signal_of_bit (Z.testbit ch 5); signal_of_bit (Z.testbit ch 4);
        signal_of_bit (Z.testbit ch 3); signal_of_bit (Z.testbit ch 2);
        signal_of_bit (Z.testbit ch 1); signal_of_bit (Z.testbit ch 0)]
     /\ signal_of_bit true = SIGUSR1 /\ signal_of_bit false = SIGUSR2)
  /\ (forall sys ack_after pid ch s h,
        all_ok sys -> acks_arrive ack_after ->
        let r := send_char_bits sys ack_after pid ch s h in
        result r = Ret tt
        /\ kills (trace_of r) = kills h ++ tag pid (char_signals ch))
  /\ (forall sys ack_after pid msg s h,
        all_ok sys -> acks_arrive ack_after ->
        let r := send_message sys ack_after pid msg s h in
        result r = Ret tt
        /\ kills (trace_of r) =
             kills h ++ tag pid (flat_map char_signals (content msg) ++ repeat SIGUSR2 8))
  /\ (forall ch (k : nat) j,
        is_char ch -> (k <= 8)%nat -> 0 <= j <= 7 ->
        let a := bits_run (firstn k (char_signals ch)) (7, 0) in
        fst a = 7 - Z.of_nat k
        /\ Z.testbit (snd a) j = (7 - Z.of_nat k <? j) && Z.testbit ch j)
  /\ (forall ch, is_char ch -> bits_run (char_signals ch) (7, 0) = (-1, ch)).
Proof.
  split; [|split; [|split; [|split]]].
  - intros ch. repeat split; reflexivity.
  - intros sys ack_after pid ch s h Hok Hack r.
    destruct (send_char_bits_ok sys ack_after Hok Hack pid ch s h) as (s' & h' & E & K).
    unfold r. rewrite E. auto.
  - intros sys ack_after pid msg s h Hok Hack r.
    destruct (send_message_ok sys ack_after Hok Hack pid msg s h) as (s' & h' & E & K).
    unfold r. rewrite E. rewrite <- message_signals_content. auto.
  - exact unit_filled.
  - intros ch Hc.
    pose proof (for_all_chars check_whole whole_checked ch Hc) as H.
    unfold check_whole in H. destruct (bits_run (char_signals ch) (7, 0)) as [b a].
    cbn [fst snd] in H. apply andb_prop in H as [Hb Ha].
    apply Z.eqb_eq in Hb, Ha. subst. reflexivity.
Qed.

(** The character A (65) and the message A: signals sent, positions filled. *)
Lemma msb_first_encoding_witness :
  kills (trace_of (send_char_bits sys_ok ack_now 4242 65 client_init []))
    = tag 4242 [SIGUSR2; SIGUSR1; SIGUSR2; SIGUSR2; SIGUSR2; SIGUSR2; SIGUSR2; SIGUSR1]
  /\ kills (trace_of (send_message sys_ok ack_now 4242 [65] client_init []))
    = tag 4242 (char_signals 65 ++ repeat SIGUSR2 8)
  /\ (fst (bits_run (firstn 2 (char_signals 65)) (7, 0)) = 7 - Z.of_nat 2
      /\ Z.testbit (snd (bits_run (firstn 2 (char_signals 65)) (7, 0))) 6
          = (7 - Z.of_nat 2 <? 6) && Z.testbit 65 6)
  /\ bits_run (char_signals 65) (7, 0) = (-1, 65).
Proof.
  destruct msb_first_encoding as (_ & Hchar & Hmsg & Hfill & Hall).
  split; [|split; [|split]].
  - apply (Hchar sys_ok ack_now 4242 65 client_init []); env_ok.
  - apply (Hmsg sys_ok ack_now 4242 [65] client_init []); env_ok.
  - apply (Hfill 65 2%nat 6); unfold is_char; lia.
  - apply (Hall 65). unfold is_char; lia.
Defined.

(** ** The handler, one invocation *)

Lemma writes_report msg : writes (report msg) = [].
Proof. reflexivity. Qed.

(** C4. When the counter has gone below 0 the handler writes one byte to
    standard output, a newline for the zero byte and the byte itself
    otherwise, and (the write having succeeded) leaves the counter at 7 and
    the accumulator at 0, from where a following message, of any sender, is
    decoded; an invocation that does not complete a byte writes nothing. *)
Theorem byte_completion sys sig pid st h :
  let r := signal_handler sys sig pid st h in
  let c1 := snd (handle_received_bit sig (bit st) (c st)) in
  (bit st - 1 < 0 ->
   sys h (Write STDOUT_FILENO [if c1 =? 0 then NL else c1]) <> -1 ->
   (exists rest,
      trace_of r = h ++ Write STDOUT_FILENO [if c1 =? 0 then NL else c1] :: rest
      /\ writes rest = [])
   /\ bit (state_of r) = 7 /\ c (state_of r) = 0
   /\ (all_ok sys ->
       forall from msg, Forall is_char msg ->
       let r' := deliver sys (map (fun sg => (sg, from)) (message_signals msg))
                   (state_of r) (trace_of r) in
       result r' = Ret tt
       /\ written STDOUT_FILENO (trace_of r')
            = written STDOUT_FILENO (trace_of r) ++ content msg ++ [NL]))
  /\ (0 <= bit st - 1 ->
      (exists rest, trace_of r = h ++ rest /\ writes rest = [])
      /\ bit (state_of r) = bit st - 1 /\ c (state_of r) = c1).
Proof.
  cbv zeta. rewrite signal_handler_run. cbv zeta. unfold STDOUT_FILENO, byte_out.
  set (c1 := snd (handle_received_bit sig (bit st) (c st))).
  set (w := Write 1 [if c1 =? 0 then NL else c1]).
  split.
  - intros Hb Hw. destruct (Z.ltb_spec (bit st - 1) 0) as [_|]; [|lia].
    destruct (Z.eqb_spec (sys h w) (-1)) as [|_]; [contradiction|].
    assert (Hready : forall r0 t, r0 = (mkServer 7 0 pid) -> all_ok sys ->
              forall from msg, Forall is_char msg ->
              let r' := deliver sys (map (fun sg => (sg, from)) (message_signals msg)) r0 t in
              result r' = Ret tt /\ written 1 (trace_of r') = written 1 t ++ content msg ++ [NL]).
    { intros r0 t -> Hok from msg Hmsg.
      destruct (receive_message sys from msg (mkServer 7 0 pid) t Hok Hmsg eq_refl eq_refl)
        as (st' & h' & E & _ & _ & Ew).
      cbv zeta. rewrite E. auto. }
    destruct (sys (h ++ [w]) (Kill pid SIGUSR1) =? -1);
      unfold trace_of, state_of; cbn [fst snd bit c].
    + split; [|split; [reflexivity|split; [reflexivity|]]].
      * eexists. split; [cbn; reflexivity|reflexivity].
      * intros Hok. apply Hready; [reflexivity|exact Hok].
    + split; [|split; [reflexivity|split; [reflexivity|]]].
      * eexists. split; [cbn; reflexivity|reflexivity].
      * intros Hok. apply Hready; [reflexivity|exact Hok].
  - intros Hb. destruct (Z.ltb_spec (bit st - 1) 0) as [|_]; [lia|].
    destruct (sys h (Kill pid SIGUSR1) =? -1);
      unfold trace_of, state_of; cbn [fst snd bit c];
      (split; [eexists; split; [reflexivity|reflexivity] | auto]).
Qed.

(** The eighth bit of a terminator, then the message Hi from another sender;
    and the third bit of a unit. *)
Lemma byte_completion_witness :
  (let r := signal_handler sys_ok SIGUSR2 77 (mkServer 0 0 77) [] in
   (exists rest, trace_of r = [] ++ Write STDOUT_FILENO [NL] :: rest /\ writes rest = [])
   /\ bit (state_of r) = 7 /\ c (state_of r) = 0
   /\ written STDOUT_FILENO
        (trace_of (deliver sys_ok (map (fun sg => (sg, 78)) (message_signals [72; 105]))
                     (state_of r) (trace_of r)))
      = written STDOUT_FILENO (trace_of r) ++ content [72; 105] ++ [NL])
  /\ (let r := signal_handler sys_ok SIGUSR1 77 (mkServer 5 64 77) [] in
      (exists rest, trace_of r = [] ++ rest /\ writes rest = [])
      /\ bit (state_of r) = 4 /\ c (state_of r) = 96).
Proof.
  split.
  - destruct (proj1 (byte_completion sys_ok SIGUSR2 77 (mkServer 0 0 77) []))
      as (Hw & Hb & Hc & Hnext).
    + cbn. lia.
    + unfold sys_ok. discriminate.
    + split; [exact Hw|]. split; [exact Hb|]. split; [exact Hc|].
      apply (Hnext ltac:(env_ok) 78 [72; 105]).
      repeat constructor; unfold is_char; lia.
  - apply (proj2 (byte_completion sys_ok SIGUSR1 77 (mkServer 5 64 77) [])).
    cbn. lia.
Defined.

(** C5. Every invocation of the handler whose write, if it makes one,
    succeeds records the sender id of the notification in [g_client_pid],
    updates the accumulator and then sends one acknowledgment, SIGUSR1, to
    that id and no other signal; this whether or not a byte was completed. *)
Theorem ack_every_bit sys sig si_pid st h :
  (forall buf, sys h (Write STDOUT_FILENO buf) <> -1) ->
  let r := signal_handler sys sig si_pid st h in
  g_client_pid (state_of r) = si_pid
  /\ (bit (state_of r), c (state_of r)) = acc_next sig (bit st, c st)
  /\ exists pre post,
       trace_of r = h ++ pre ++ Kill si_pid SIGUSR1 :: post
       /\ kills pre = [] /\ kills post = []
       /\ (sys (h ++ pre) (Kill si_pid SIGUSR1) <> -1 -> post = [] /\ result r = Ret tt).
Proof.
  intros Hw. cbv zeta. rewrite signal_handler_run. cbv zeta.
  unfold acc_next, handle_received_bit. cbn [fst snd].
  set (c1 := if sig =? SIGUSR1 then _ else _).
  destruct (bit st - 1 <? 0).
  - destruct (Z.eqb_spec (sys h (Write 1 [byte_out c1])) (-1)) as [E|_];
      [exfalso; exact (Hw _ E)|].
    destruct (Z.eqb_spec (sys (h ++ [Write 1 [byte_out c1]]) (Kill si_pid SIGUSR1)) (-1))
      as [E|E]; unfold trace_of, state_of, result; cbn [fst snd bit c g_client_pid];
      (split; [reflexivity|split; [reflexivity|]]).
    + exists [Write 1 [byte_out c1]], (report "Server: ACK failed").
      repeat split; try reflexivity; contradiction.
    + exists [Write 1 [byte_out c1]], []. repeat split; reflexivity.
  - destruct (Z.eqb_spec (sys h (Kill si_pid SIGUSR1)) (-1)) as [E|E];
      unfold trace_of, state_of, result; cbn [fst snd bit c g_client_pid];
      (split; [reflexivity|split; [reflexivity|]]).
    + exists [], (report "Server: ACK failed").
      split; [reflexivity|]. split; [reflexivity|]. split; [reflexivity|].
      intros Hk. rewrite app_nil_r in Hk. contradiction.
    + exists [], []. repeat split; reflexivity.
Qed.

(** A bit in the middle of a unit, from sender 4242. *)
Lemma ack_every_bit_witness :
  let r := signal_handler sys_ok SIGUSR1 4242 (mkServer 5 64 77) [] in
  g_client_pid (state_of r) = 4242
  /\ (bit (state_of r), c (state_of r)) = acc_next SIGUSR1 (5, 64)
  /\ exists pre post,
       trace_of r = [] ++ pre ++ Kill 4242 SIGUSR1 :: post
       /\ kills pre = [] /\ kills post = []
       /\ post = [] /\ result r = Ret tt.
Proof.
  destruct (ack_every_bit sys_ok SIGUSR1 4242 (mkServer 5 64 77) [])
    as (Hpid & Hacc & pre & post & Ht & Hpre & Hpost & Hdone).
  - intros buf. unfold sys_ok. discriminate.
  - split; [exact Hpid|]. split; [exact Hacc|].
    exists pre, post. split; [exact Ht|]. split; [exact Hpre|]. split; [exact Hpost|].
    apply Hdone. unfold sys_ok. discriminate.
Defined.

(** ** Signals other than SIGUSR1 *)

Lemma not_sigusr1 sig b a :
  sig <> SIGUSR1 -> handle_received_bit sig b a = handle_received_bit SIGUSR2 b a.
Proof.
  intros Hs. unfold handle_received_bit.
  destruct (Z.eqb_spec sig SIGUSR1); [contradiction|]. reflexivity.
Qed.

Lemma clear_checked :
  forallb (fun a => forallb (fun b => forallb (check_clear a b) all_bits) all_bits)
    all_chars = true.
Proof. vm_compute. reflexivity. Qed.

(** C9. A signal number other than SIGUSR1, whichever it is, is handled as
    SIGUSR2 is: the bit of the accumulator at the current position is
    cleared, the other bits are kept, and the counter is decremented. *)
Theorem other_signals_are_zero_bits sig b a :
  sig <> SIGUSR1 ->
  handle_received_bit sig b a = handle_received_bit SIGUSR2 b a
  /\ fst (handle_received_bit sig b a) = b - 1
  /\ (forall sys pid st h,
        signal_handler sys sig pid st h = signal_handler sys SIGUSR2 pid st h)
  /\ (0 <= b <= 7 -> is_char a ->
      let a' := snd (handle_received_bit sig b a) in
      Z.testbit a' b = false
      /\ (forall j, 0 <= j <= 7 -> j <> b -> Z.testbit a' j = Z.testbit a j)
      /\ is_char a').
Proof.
  intros Hs. split; [exact (not_sigusr1 sig b a Hs)|].
  split; [reflexivity|]. split.
  - intros sys pid st h. rewrite !signal_handler_run. cbv zeta.
    rewrite (not_sigusr1 sig _ _ Hs). reflexivity.
  - intros Hb Ha. cbv zeta. rewrite (not_sigusr1 sig b a Hs).
    pose proof (for_all_chars _ clear_checked a Ha) as H1. cbv beta in H1.
    pose proof (for_all_bits _ H1 b Hb) as H2. cbv beta in H2.
    split; [|split].
    + pose proof (for_all_bits _ H2 0 ltac:(lia)) as H3. unfold check_clear in H3.
      apply andb_prop in H3 as [H3 _]. apply andb_prop in H3 as [H3 _].
      apply andb_prop in H3 as [H3 _]. apply negb_true_iff in H3. exact H3.
    + intros j Hj Hne. pose proof (for_all_bits _ H2 j Hj) as H3.
      unfold check_clear in H3.
      apply andb_prop in H3 as [H3 _]. apply andb_prop in H3 as [H3 _].
      apply andb_prop in H3 as [_ H3].
      destruct (Z.eqb_spec j b); [contradiction|]. apply Bool.eqb_prop, H3.
    + pose proof (for_all_bits _ H2 0 ltac:(lia)) as H3. unfold check_clear in H3.
      apply andb_prop in H3 as [H3 Hhi]. apply andb_prop in H3 as [_ Hlo].
      unfold is_char. lia.
Qed.

(** SIGINT (2) at position 3 of the accumulator 0x4A. *)
Lemma other_signals_are_zero_bits_witness :
  handle_received_bit 2 3 74 = handle_received_bit SIGUSR2 3 74
  /\ fst (handle_received_bit 2 3 74) = 3 - 1
  /\ (let a' := snd (handle_received_bit 2 3 74) in
      Z.testbit a' 3 = false
      /\ (forall j, 0 <= j <= 7 -> j <> 3 -> Z.testbit a' j = Z.testbit 74 j)
      /\ is_char a').
Proof.
  destruct (other_signals_are_zero_bits 2 3 74) as (H1 & H2 & _ & H4).
  - unfold SIGUSR1. lia.
  - split; [exact H1|]. split; [exact H2|].
    apply H4; unfold is_char; lia.
Defined.

(** ** The clear-bit branch *)

Lemma step_checked :
  forallb (fun a => forallb (check_step a) all_bits) all_chars = true.
Proof. vm_compute. reflexivity. Qed.

Lemma well_formed_step sig st :
  well_formed st ->
  let c1 := snd (handle_received_bit sig (bit st) (c st)) in
  handle_received_bit_or sig (bit st) (c st) = handle_received_bit sig (bit st) (c st)
  /\ (sig <> SIGUSR1 -> c1 = c st)
  /\ is_char c1 /\ Z.land c1 (Z.ones (bit st - 1 + 1)) = 0.
Proof.
  intros (Hb & Hc & Hlow). cbv zeta.
  pose proof (for_all_chars _ step_checked (c st) Hc) as H1. cbv beta in H1.
  pose proof (for_all_bits _ H1 (bit st) Hb) as H2. unfold check_step in H2.
  apply Z.eqb_eq in Hlow. rewrite Hlow in H2. cbn [implb] in H2.
  apply andb_prop in H2 as [H2 H3]. apply andb_prop in H2 as [Hsame Hlow2].
  cbv zeta in H3.
  apply andb_prop in H3 as [H3 Hlow1]. apply andb_prop in H3 as [H3 Hhi].
  apply andb_prop in H3 as [Hor Hlo].
  apply Z.eqb_eq in Hsame, Hlow2, Hor, Hlow1.
  replace (bit st - 1 + 1) with (bit st) by lia.
  unfold handle_received_bit_or.
  unfold is_char.
  destruct (Z.eqb_spec sig SIGUSR1) as [->|Hne].
  - split; [unfold handle_received_bit; rewrite Z.shiftl_1_l; reflexivity|].
    split; [intros Habs; contradiction|].
    split; [lia|exact Hlow1].
  - rewrite (not_sigusr1 sig _ _ Hne), Hsame.
    split; [unfold handle_received_bit in Hsame |- *; cbn [snd] in Hsame;
            rewrite Hsame; reflexivity|].
    split; [reflexivity|]. unfold is_char in Hc. split; [lia|exact Hlow2].
Qed.

Lemma well_formed_init : well_formed server_init.
Proof. unfold well_formed, is_char. cbn. repeat split; lia. Qed.

Lemma handler_preserves sys sig pid st h st' h' :
  well_formed st ->
  signal_handler sys sig pid st h = (Ret tt, st', h') -> well_formed st'.
Proof.
  intros Hwf. destruct (well_formed_step sig st Hwf) as (_ & _ & Hc1 & Hlow).
  rewrite signal_handler_run. cbv zeta.
  destruct (Z.ltb_spec (bit st - 1) 0) as [Hb|Hb].
  - destruct (_ =? -1); [discriminate|]. destruct (_ =? -1); [discriminate|].
    intros E. inversion E. unfold well_formed, is_char. cbn. repeat split; lia.
  - destruct (_ =? -1); [discriminate|].
    intros E. inversion E. destruct Hwf as (Hr & _). unfold well_formed. cbn [bit c].
    split; [lia|]. split; [exact Hc1|exact Hlow].
Qed.

Lemma handler_or_eq sys sig pid st h :
  well_formed st -> signal_handler_or sys sig pid st h = signal_handler sys sig pid st h.
Proof.
  intros Hwf. destruct (well_formed_step sig st Hwf) as (Heq & _).
  unfold signal_handler_or, signal_handler.
  unfold bind at 1. unfold modify at 1.
  unfold bind at 1. unfold modify at 1. cbn [bit c g_client_pid]. rewrite Heq.
  unfold bind at 3. unfold modify at 1.
  unfold bind at 3. unfold modify at 1. reflexivity.
Qed.

Lemma deliver_well_formed sys ns :
  forall st h st' h',
    well_formed st -> deliver sys ns st h = (Ret tt, st', h') -> well_formed st'.
Proof.
  induction ns as [|[sig pid] ns IH]; intros st h st' h' Hwf; cbn [deliver].
  - unfold ret. intros E. inversion E. subst. exact Hwf.
  - unfold bind. destruct (signal_handler sys sig pid st h) as [[[u|x|] st1] h1] eqn:E1;
      try discriminate.
    destruct u. apply IH. exact (handler_preserves _ _ _ _ _ _ _ Hwf E1).
Qed.

Lemma deliver_or_eq sys ns :
  forall st h, well_formed st -> deliver_or sys ns st h = deliver sys ns st h.
Proof.
  induction ns as [|[sig pid] ns IH]; intros st h Hwf; cbn [deliver deliver_or].
  - reflexivity.
  - unfold bind. rewrite (handler_or_eq sys sig pid st h Hwf).
    destruct (signal_handler sys sig pid st h) as [[[u|x|] st1] h1] eqn:E1;
      try reflexivity.
    destruct u. apply IH. exact (handler_preserves _ _ _ _ _ _ _ Hwf E1).
Qed.

Lemma unit_is_or sigs :
  List.length sigs = 8%nat ->
  bits_run sigs (7, 0) = (-1, to_char (or_positions sigs 7))
  /\ snd (bits_run sigs (7, 0)) mod 256 = or_positions sigs 7.
Proof.
  intros Hlen.
  destruct sigs as [|s7 [|s6 [|s5 [|s4 [|s3 [|s2 [|s1 [|s0 [|x l]]]]]]]]];
    try discriminate.
  unfold bits_run. cbn [fold_left or_positions]. unfold handle_received_bit.
  cbn [fst snd].
  destruct (s7 =? SIGUSR1), (s6 =? SIGUSR1), (s5 =? SIGUSR1), (s4 =? SIGUSR1),
    (s3 =? SIGUSR1), (s2 =? SIGUSR1), (s1 =? SIGUSR1), (s0 =? SIGUSR1);
    vm_compute; split; reflexivity.
Qed.

(** C10. In every state the receiver reaches the accumulator has no bit at
    or below the counter; so it is 0 before the first bit of each unit, the
    clear-bit branch never changes it, the handler behaves as one that only
    ORs [2^position] on SIGUSR1, and the 8 signals of a unit leave the OR of
    [2^position] over the positions at which SIGUSR1 arrived. *)
Theorem clear_branch_is_idle :
  (forall sys ns, deliver_or sys ns server_init [] = deliver sys ns server_init [])
  /\ (forall sys ns,
        let r := deliver sys ns server_init [] in
        result r = Ret tt ->
        well_formed (state_of r)
        /\ (bit (state_of r) = 7 -> c (state_of r) = 0)
        /\ (forall sig, sig <> SIGUSR1 ->
              snd (handle_received_bit sig (bit (state_of r)) (c (state_of r)))
              = c (state_of r)))
  /\ (forall sigs, List.length sigs = 8%nat ->
        bits_run sigs (7, 0) = (-1, to_char (or_positions sigs 7))
        /\ snd (bits_run sigs (7, 0)) mod 256 = or_positions sigs 7).
Proof.
  split; [|split].
  - intros sys ns. apply deliver_or_eq, well_formed_init.
  - intros sys ns r Hr.
    destruct (deliver sys ns server_init []) as [[o st] h] eqn:E.
    unfold r, result, state_of in *. cbn [fst snd] in *. subst o.
    pose proof (deliver_well_formed sys ns _ _ _ _ well_formed_init E) as Hwf.
    split; [exact Hwf|]. split.
    + intros Hb. destruct Hwf as (_ & Hc & Hlow). rewrite Hb in Hlow.
      change (7 + 1) with 8 in Hlow. rewrite Z.land_ones in Hlow by lia.
      change (2 ^ 8) with 256 in Hlow. unfold is_char in Hc.
      revert Hlow. Z.div_mod_to_equations. lia.
    + intros sig Hs. exact (proj1 (proj2 (well_formed_step sig st Hwf)) Hs).
  - exact unit_is_or.
Qed.

(** After the eight signals of A the accumulator is 0 again; after SIGUSR1
    and SIGUSR2 it is 0x80, which a further 0 bit does not change; and the
    signals 0100 0001 give 2^6 | 2^0. *)
Lemma clear_branch_is_idle_witness :
  (let r := deliver sys_ok (map (fun sg => (sg, 77)) (char_signals 65)) server_init [] in
   bit (state_of r) = 7 /\ c (state_of r) = 0)
  /\ (let r := deliver sys_ok [(SIGUSR1, 77); (SIGUSR2, 77)] server_init [] in
      c (state_of r) = -128
      /\ snd (handle_received_bit SIGUSR2 (bit (state_of r)) (c (state_of r)))
         = c (state_of r))
  /\ snd (bits_run (char_signals 65) (7, 0)) mod 256 = Z.lor (2 ^ 6) (2 ^ 0).
Proof.
  destruct clear_branch_is_idle as (_ & Hreach & Hunit).
  split; [|split].
  - destruct (Hreach sys_ok (map (fun sg => (sg, 77)) (char_signals 65)))
      as (_ & Hzero & _); [reflexivity|].
    split; [reflexivity|]. apply Hzero. reflexivity.
  - destruct (Hreach sys_ok [(SIGUSR1, 77); (SIGUSR2, 77)]) as (_ & _ & Hidle);
      [reflexivity|].
    split; [reflexivity|]. apply Hidle. unfold SIGUSR1, SIGUSR2. lia.
  - destruct (Hunit (char_signals 65)) as [_ Hor]; [reflexivity|].
    rewrite Hor. reflexivity.
Defined.

(** ** Failing calls *)

Section Fail_stop.

Variable sys : list event -> event -> Z.

Lemma clean_app h t t' : clean sys h t -> clean sys (h ++ t) t' -> clean sys h (t ++ t').
Proof.
  revert h. induction t as [|e t IH]; intros h Ht Ht'; cbn in *.
  - rewrite app_nil_r in Ht'. exact Ht'.
  - destruct Ht as [He Ht]. split; [exact He|].
    apply IH; [exact Ht|]. rewrite <- app_assoc. exact Ht'.
Qed.

Lemma clean_middle h t1 e t2 :
  clean sys h (t1 ++ e :: t2) -> fallible e = true -> sys (h ++ t1) e <> -1.
Proof.
  revert h. induction t1 as [|x t1 IH]; intros h Hc He; cbn in Hc.
  - rewrite app_nil_r. exact (proj1 Hc He).
  - destruct Hc as [_ Hc]. specialize (IH _ Hc He).
    rewrite <- app_assoc in IH. exact IH.
Qed.

Lemma clean_usleep h n : clean sys h (repeat (Usleep 100) n).
Proof.
  revert h. induction n as [|n IH]; intros h; cbn; [exact I|].
  split; [discriminate|apply IH].
Qed.

(** In an aborted sys trace the failing call is the only one, and it is followed
    by the report alone. *)
Lemma aborted_first h t t1 e t2 :
  aborted sys h t -> t = t1 ++ e :: t2 -> fallible e = true -> sys (h ++ t1) e = -1 ->
  exists msg, t2 = report msg.
Proof.
  intros (t0 & e0 & msg & -> & Hc & He0 & Hf0) Heq He Hf.
  exists msg. revert h t1 Hc Hf0 Heq Hf.
  induction t0 as [|x t0 IH]; intros h t1 Hc Hf0 Heq Hf.
  - destruct t1 as [|y t1]; cbn in Heq.
    + injection Heq as _ Hrest. symmetry. exact Hrest.
    + injection Heq as _ Hrest. exfalso. unfold report in Hrest.
      destruct t1 as [|y1 [|y2 [|y3 t1]]]; cbn in Hrest;
        try discriminate; injection Hrest as Hrest; try discriminate;
        subst; discriminate.
  - cbn in Hc. destruct Hc as [Hx Hc].
    destruct t1 as [|y t1]; cbn in Heq; injection Heq as Hxy Hrest.
    + exfalso. subst x. rewrite app_nil_r in Hf. exact (Hx He Hf).
    + subst y. apply (IH (h ++ [x]) t1 Hc).
      * rewrite <- app_assoc. exact Hf0.
      * exact Hrest.
      * rewrite <- app_assoc. exact Hf.
Qed.

Lemma fail_stop_first {S A} (m : M S A) s h t1 e t2 :
  fail_stop sys m ->
  trace_of (m s h) = h ++ t1 ++ e :: t2 ->
  fallible e = true -> sys (h ++ t1) e = -1 ->
  result (m s h) = Exit EXIT_FAILURE /\ exists msg, t2 = report msg.
Proof.
  intros Hm Ht He Hf. destruct (Hm s h) as (t & Et & [Hc|[Ha Hr]]).
  - rewrite Et in Ht. apply app_inv_head in Ht. subst t.
    exfalso. exact (clean_middle _ _ _ _ Hc He Hf).
  - rewrite Et in Ht. apply app_inv_head in Ht.
    split; [exact Hr|]. exact (aborted_first _ _ _ _ _ Ha Ht He Hf).
Qed.

Lemma fail_stop_ret {S A} (a : A) : fail_stop sys (@ret S A a).
Proof. intros s h. exists []. cbn. rewrite app_nil_r. auto. Qed.

Lemma fail_stop_get {S} : fail_stop sys (@get S).
Proof. intros s h. exists []. cbn. rewrite app_nil_r. auto. Qed.

Lemma fail_stop_put {S} (s0 : S) : fail_stop sys (put s0).
Proof. intros s h. exists []. cbn. rewrite app_nil_r. auto. Qed.

Lemma fail_stop_modify {S} (f : S -> S) : fail_stop sys (modify f).
Proof. intros s h. exists []. cbn. rewrite app_nil_r. auto. Qed.

Lemma fail_stop_exit {S A} st : fail_stop sys (@exit S A st).
Proof. intros s h. exists []. cbn. rewrite app_nil_r. auto. Qed.

Lemma fail_stop_hang {S A} : fail_stop sys (@hang S A).
Proof. intros s h. exists []. cbn. rewrite app_nil_r. auto. Qed.

Lemma fail_stop_emit {S} e : fallible e = false -> fail_stop sys (@emit S e).
Proof.
  intros He s h. exists [e]. split; [reflexivity|]. left. cbn.
  split; [rewrite He; discriminate|exact I].
Qed.

Lemma fail_stop_call {S} e : fallible e = false -> fail_stop sys (@call sys S e).
Proof.
  intros He s h. exists [e]. split; [reflexivity|]. left. cbn.
  split; [rewrite He; discriminate|exact I].
Qed.

Lemma fail_stop_wait ack_after : fail_stop sys (wait_for_ack ack_after).
Proof.
  intros s h. unfold wait_for_ack. destruct (ack_after h) as [n|].
  - exists (repeat (Usleep 100) n). split; [reflexivity|]. left. apply clean_usleep.
  - exists []. cbn. rewrite app_nil_r. auto.
Qed.

(** A call whose result is tested, as the program tests all of them. *)
Lemma fail_stop_checked {S} e msg :
  fallible e = true ->
  fail_stop sys (r <- @call sys S e ;; if r =? -1 then sys_error msg else ret tt).
Proof.
  intros He s h. unfold bind, call.
  destruct (Z.eqb_spec (sys h e) (-1)) as [Hf|Hf].
  - rewrite sys_error_run. exists (e :: report msg).
    unfold trace_of, result. cbn [fst snd]. rewrite <- app_assoc.
    split; [reflexivity|]. right. split; [|reflexivity].
    exists [], e, msg. rewrite app_nil_r. cbn. auto.
  - exists [e]. split; [reflexivity|]. left. cbn. auto.
Qed.

Lemma fail_stop_bind {S A B} (m : M S A) (k : A -> M S B) :
  fail_stop sys m -> (forall a, fail_stop sys (k a)) -> fail_stop sys (bind m k).
Proof.
  intros Hm Hk s h. destruct (Hm s h) as (t & Et & Hcase). unfold bind.
  destruct (m s h) as [[[a|st|] s1] h1] eqn:E; unfold trace_of, result in *;
    cbn [fst snd] in *; subst h1.
  - destruct Hcase as [Hc|[_ Habs]]; [|discriminate].
    destruct (Hk a s1 (h ++ t)) as (t' & Et' & Hcase').
    exists (t ++ t'). rewrite app_assoc. split; [exact Et'|].
    destruct Hcase' as [Hc'|[(t0 & e & msg & -> & Hc0 & He & Hf) Hr]].
    + left. apply clean_app; assumption.
    + right. split; [|exact Hr].
      exists (t ++ t0), e, msg. rewrite <- app_assoc. split; [reflexivity|].
      split; [apply clean_app; assumption|]. split; [exact He|].
      rewrite app_assoc. exact Hf.
  - exists t. split; [reflexivity|].
    destruct Hcase as [Hc|[Ha Hr]]; [left; exact Hc|].
    right. split; [exact Ha|]. injection Hr as ->. reflexivity.
  - exists t. split; [reflexivity|].
    destruct Hcase as [Hc|[_ Habs]]; [left; exact Hc|discriminate].
Qed.

End Fail_stop.

Create HintDb fail_stop.

#[local] Hint Resolve fail_stop_ret fail_stop_get fail_stop_put fail_stop_modify fail_stop_exit
  fail_stop_hang fail_stop_wait fail_stop_checked : fail_stop.

#[local] Hint Extern 1 (fail_stop _ (emit _)) =>
  apply fail_stop_emit; reflexivity : fail_stop.

#[local] Hint Extern 1 (fail_stop _ (call _ _)) =>
  apply fail_stop_call; reflexivity : fail_stop.

#[local] Hint Extern 2 (fail_stop _ (bind _ _)) =>
  apply fail_stop_bind; [|intros ?] : fail_stop.

#[local] Hint Extern 3 (fail_stop _ (if ?b then _ else _)) => destruct b : fail_stop.

Section Fail_stop_program.

Variable sys : list event -> event -> Z.

Variable ack_after : list event -> option nat.

Variable ft_atoi : cstring -> Z.

Lemma fail_stop_sys_error {S A} msg : fail_stop sys (@sys_error S A msg).
Proof. unfold sys_error. auto 10 with fail_stop. Qed.

Lemma fail_stop_validate_client {S} argc : fail_stop sys (@validate_input_client S argc).
Proof. unfold validate_input_client. auto 10 with fail_stop. Qed.

Lemma fail_stop_validate_server {S} argc : fail_stop sys (@validate_input_server S argc).
Proof. unfold validate_input_server. auto 10 with fail_stop. Qed.

Lemma fail_stop_get_pid {S} argv : fail_stop sys (@get_server_pid_from_input ft_atoi S argv).
Proof. unfold get_server_pid_from_input. cbv zeta. auto 10 with fail_stop. Qed.

Lemma fail_stop_display {S} pid : fail_stop sys (@display_information_server S pid).
Proof. unfold display_information_server. auto 10 with fail_stop. Qed.

Lemma fail_stop_setup_ack : fail_stop sys (setup_ack_signal sys).
Proof. unfold setup_ack_signal. auto with fail_stop. Qed.

Lemma fail_stop_setup_signals {S} : fail_stop sys (@setup_signals sys S).
Proof. unfold setup_signals. cbv zeta. auto 10 with fail_stop. Qed.

Lemma fail_stop_send_char_loop pid ch n :
  fail_stop sys (send_char_loop sys ack_after pid ch n).
Proof.
  induction n as [|n IH]; cbn [send_char_loop]; auto 20 with fail_stop.
Qed.

Lemma fail_stop_send_message pid msg : fail_stop sys (send_message sys ack_after pid msg).
Proof.
  pose proof (fail_stop_send_char_loop pid) as Hc.
  induction msg as [|ch rest IH]; cbn [send_message]; unfold send_char_bits;
    auto 10 with fail_stop.
Qed.

Lemma fail_stop_client_main argv : fail_stop sys (client_main sys ack_after ft_atoi argv).
Proof.
  pose proof (@fail_stop_validate_client client). pose proof (@fail_stop_get_pid client).
  pose proof fail_stop_setup_ack. pose proof fail_stop_send_message.
  unfold client_main. auto 20 with fail_stop.
Qed.

Lemma fail_stop_process_character {S} b a : fail_stop sys (@process_character sys S b a).
Proof. unfold process_character. auto 20 with fail_stop. Qed.

Lemma fail_stop_signal_handler sig pid : fail_stop sys (signal_handler sys sig pid).
Proof.
  pose proof (@fail_stop_process_character server).
  unfold signal_handler. auto 20 with fail_stop.
Qed.

Lemma fail_stop_server_main argv : fail_stop sys (server_main sys argv).
Proof.
  pose proof (@fail_stop_validate_server server). pose proof (@fail_stop_display server).
  pose proof (@fail_stop_setup_signals server).
  unfold server_main. auto 20 with fail_stop.
Qed.

End Fail_stop_program.

Lemma fail_stop_stops sys {S A} (m : M S A) s h :
  fail_stop sys m -> stops_at_failure sys (m s h) h.
Proof.
  intros Hm. split.
  - destruct (Hm s h) as (t & Et & _). exists t. exact Et.
  - intros t1 e t2 Ht He Hf. exact (fail_stop_first sys m s h t1 e t2 Hm Ht He Hf).
Qed.

(** C8. In the sender and in the receiver, the first call to [kill],
    [write] or [sigaction] that fails is followed by the two lines of the
    error report and by nothing else, and the process exits with
    EXIT_FAILURE: no retry, no further signal or output. *)
Theorem failures_are_fatal :
  (forall sys ack_after ft_atoi argv s h,
     stops_at_failure sys (client_main sys ack_after ft_atoi argv s h) h)
  /\ (forall sys sig si_pid st h,
        stops_at_failure sys (signal_handler sys sig si_pid st h) h)
  /\ (forall sys argv st h,
        stops_at_failure sys (server_main sys argv st h) h).
Proof.
  split; [|split]; intros; apply fail_stop_stops.
  - apply fail_stop_client_main.
  - apply fail_stop_signal_handler.
  - apply fail_stop_server_main.
Qed.

(** The second [kill] of the sender fails; the [write] of a completed byte
    fails; the acknowledgment fails; the second [sigaction] of the receiver
    fails. *)
Lemma failures_are_fatal_witness :
  (let r := client_main (sys_fail_at 3) ack_now atoi
              [cstr "./client"; cstr "4242"; cstr "Hi"] client_init [] in
   trace_of r = [Sigaction SIGUSR1 Ack_handler SA_RESTART; Kill 4242 SIGUSR2; Usleep 100;
                 Kill 4242 SIGUSR1] ++ report "Failed to send SIGUSR1"
   /\ result r = Exit EXIT_FAILURE)
  /\ (let r := signal_handler (sys_fail_at 0) SIGUSR1 4242 (mkServer 0 64 4242) [] in
      trace_of r = [Write 1 [65]] ++ report "Server: write failed"
      /\ result r = Exit EXIT_FAILURE)
  /\ (let r := signal_handler (sys_fail_at 0) SIGUSR1 4242 (mkServer 5 64 4242) [] in
      trace_of r = [Kill 4242 SIGUSR1] ++ report "Server: ACK failed"
      /\ result r = Exit EXIT_FAILURE)
  /\ (let r := server_main (sys_fail_at 4) [cstr "./server"] server_init [] in
      trace_of r = [Getpid; Printf ("PID: %d" ++ nl) [0];
                    Printf ("Waiting for a message..." ++ nl) [];
                    Sigaction SIGUSR1 Signal_handler (Z.lor SA_SIGINFO SA_RESTART);
                    Sigaction SIGUSR2 Signal_handler (Z.lor SA_SIGINFO SA_RESTART)]
                   ++ report "Server: SIGUSR2 setup failed"
      /\ result r = Exit EXIT_FAILURE).
Proof.
  destruct failures_are_fatal as (Hclient & Hhandler & Hserver).
  split; [|split; [|split]]; cbv zeta; (split; [vm_compute; reflexivity|]).
  - apply (proj2 (Hclient (sys_fail_at 3) ack_now atoi
                    [cstr "./client"; cstr "4242"; cstr "Hi"] client_init [])
             [Sigaction SIGUSR1 Ack_handler SA_RESTART; Kill 4242 SIGUSR2; Usleep 100]
             (Kill 4242 SIGUSR1) (report "Failed to send SIGUSR1"));
      vm_compute; reflexivity.
  - apply (proj2 (Hhandler (sys_fail_at 0) SIGUSR1 4242 (mkServer 0 64 4242) [])
             [] (Write 1 [65]) (report "Server: write failed"));
      vm_compute; reflexivity.
  - apply (proj2 (Hhandler (sys_fail_at 0) SIGUSR1 4242 (mkServer 5 64 4242) [])
             [] (Kill 4242 SIGUSR1) (report "Server: ACK failed"));
      vm_compute; reflexivity.
  - apply (proj2 (Hserver (sys_fail_at 4) [cstr "./server"] server_init [])
             [Getpid; Printf ("PID: %d" ++ nl) [0];
              Printf ("Waiting for a message..." ++ nl) [];
              Sigaction SIGUSR1 Signal_handler (Z.lor SA_SIGINFO SA_RESTART)]
             (Sigaction SIGUSR2 Signal_handler (Z.lor SA_SIGINFO SA_RESTART))
             (report "Server: SIGUSR2 setup failed"));
      vm_compute; reflexivity.
Defined.

(** ** The sender's command line *)

Lemma validate_input_client_run {S} argc (s : S) h :
  validate_input_client argc s h =
    if argc =? 3 then (Ret tt, s, h)
    else (Exit EXIT_FAILURE, s,
          h ++ [Fprintf_stderr ("Error: wrong format" ++ nl);
                Fprintf_stderr ("Usage: ./client <PID> <" ++ dq ++ "MESSAGE" ++ dq ++ ">" ++ nl)]).
Proof.
  unfold validate_input_client. destruct (argc =? 3); cbn [negb]; [reflexivity|].
  unfold bind, emit, exit. rewrite <- app_assoc. reflexivity.
Qed.



(** *** What the first argument converts to *)









(** Every run of the sender that returns from [main] returns EXIT_SUCCESS
    and ends with the confirmation line, written with [ft_putstr_fd] to the
    descriptor STDIN_FILENO. *)
Lemma client_main_success sys ack_after (ft_atoi : cstring -> Z) (argv : list cstring) s h v :
  result (client_main sys ack_after ft_atoi argv s h) = Ret v ->
  v = EXIT_SUCCESS
  /\ exists t,
       trace_of (client_main sys ack_after ft_atoi argv s h)
       = t ++ [Putstr_fd ("Message sent successfully!" ++ nl) STDIN_FILENO].
Proof.
  intros Hr. unfold client_main in Hr |- *.
  destruct (bind_ret_inv _ _ _ _ _ Hr) as (u1 & s1 & h1 & _ & R1). rewrite R1 in Hr |- *.
  destruct (bind_ret_inv _ _ _ _ _ Hr) as (pid & s2 & h2 & _ & R2). rewrite R2 in Hr |- *.
  destruct (bind_ret_inv _ _ _ _ _ Hr) as (u3 & s3 & h3 & _ & R3). rewrite R3 in Hr |- *.
  destruct (bind_ret_inv _ _ _ _ _ Hr) as (u4 & s4 & h4 & _ & R4). rewrite R4 in Hr |- *.
  unfold bind, emit, ret, result, trace_of in Hr |- *. cbn [fst snd] in Hr |- *.
  injection Hr as <-. split; [reflexivity|]. exists h4. reflexivity.
Qed.

(** C7, as the code has it. The sender run with a valid id and the message
    Hi, no call failing, sends the signals of the message and returns 0; its
    last event is the confirmation line, written to descriptor 0
    (STDIN_FILENO, where the claim has standard output), and nothing in its
    trace goes to standard output. *)
Theorem confirmation_written_to_stdin :
  let r := client_main sys_ok ack_now atoi [cstr "./client"; cstr "4242"; cstr "Hi"]
             client_init [] in
  result r = Ret EXIT_SUCCESS
  /\ signals_sent (trace_of r) = message_signals (cstr "Hi")
  /\ last (trace_of r) Getpid = Putstr_fd ("Message sent successfully!" ++ nl) STDIN_FILENO
  /\ STDIN_FILENO <> STDOUT_FILENO
  /\ filter to_stdout (trace_of r) = [].
Proof.
  cbv zeta. split; [vm_compute; reflexivity|]. split; [vm_compute; reflexivity|].
  split; [vm_compute; reflexivity|]. split; [discriminate|]. vm_compute. reflexivity.
Qed.

(** * Stop and wait *)

Module Stop_and_wait.

Import Async.

(** ** The automaton *)

Lemma flow_run_app q l1 l2 :
  flow_run q (l1 ++ l2) =
    match flow_run q l1 with
    | Some q' => flow_run q' l2
    | None => None
    end.
Proof.
  revert q. induction l1 as [|o l1 IH]; intros q; cbn; [reflexivity|].
  destruct (flow_step q o); [apply IH|reflexivity].
Qed.

Lemma flow_of_snoc l o :
  flow_of (l ++ [o]) =
    match flow_of l with
    | Some q => flow_step q o
    | None => None
    end.
Proof.
  unfold flow_of. rewrite flow_run_app. destruct (flow_run Idle l) as [q|]; [|reflexivity].
  cbn. destruct (flow_step q o); reflexivity.
Qed.

Lemma sent_cons o l : sent (o :: l) = ((if is_sent o then 1 else 0) + sent l)%nat.
Proof. unfold sent. cbn. destruct (is_sent o); reflexivity. Qed.

Lemma seen_cons o l : seen (o :: l) = ((if is_seen o then 1 else 0) + seen l)%nat.
Proof. unfold seen. cbn. destruct (is_seen o); reflexivity. Qed.

Lemma cleared_cons o l :
  cleared (o :: l) = ((if is_cleared o then 1 else 0) + cleared l)%nat.
Proof. unfold cleared. cbn. destruct (is_cleared o); reflexivity. Qed.

(** Every accepted step keeps the balance of clearings, sends and
    acknowledgments seen. *)
Lemma flow_step_balance q o q' :
  flow_step q o = Some q' ->
  ((if is_sent o then 1 else 0) + pending q = (if is_seen o then 1 else 0) + pending q'
   /\ (if is_cleared o then 1 else 0) + armed q = (if is_sent o then 1 else 0) + armed q')%nat.
Proof.
  destruct o as [| p sg | f | | | m]; destruct q as [|a|a]; cbn;
    try discriminate; try (intros E; injection E as <-; cbn; lia).
  destruct (f =? 0); cbn; [intros E; injection E as <-; cbn; lia|].
  destruct a; [intros E; injection E as <-; cbn; lia|discriminate].
Qed.

Lemma flow_run_balance l :
  forall q q', flow_run q l = Some q' ->
  (sent l + pending q = seen l + pending q'
   /\ cleared l + armed q = sent l + armed q')%nat.
Proof.
  induction l as [|o l IH]; intros q q' Hrun; cbn in Hrun.
  - injection Hrun as <-. cbn. lia.
  - destruct (flow_step q o) as [q1|] eqn:E; [|discriminate].
    destruct (flow_step_balance _ _ _ E) as [H1 H2].
    destruct (IH _ _ Hrun) as [H3 H4].
    rewrite sent_cons, seen_cons, cleared_cons. lia.
Qed.

(** From between two bits, the flag is cleared before anything is sent. *)
Lemma armed_after_clear l :
  forall q x, flow_run q l = Some (Armed x) ->
  (exists y, q = Armed y /\ filter is_sent l = [])
  \/ (exists a b, l = a ++ Cleared :: b /\ filter is_sent b = []).
Proof.
  induction l as [|o l IH]; intros q x Hrun; cbn in Hrun.
  - injection Hrun as ->. left. exists x. auto.
  - destruct (flow_step q o) as [q1|] eqn:E; [|discriminate].
    destruct (IH _ _ Hrun) as [(y & -> & Hns)|(a & b & -> & Hns)].
    + destruct o as [| p sg | f | | | m]; destruct q as [|a|a]; cbn in E;
        try discriminate;
        try (left; eexists; split; [reflexivity|exact Hns]).
      * right. exists [], l. auto.
      * destruct (f =? 0); [discriminate|]. destruct a; discriminate.
    + right. exists (o :: a), b. auto.
Qed.

(** From a bit in flight to the next clearing of the flag, the flag is read
    set. *)
Lemma idle_to_armed l :
  forall x, flow_run Idle l = Some (Armed x) -> exists b d, l = b ++ Cleared :: d.
Proof.
  intros x Hrun. destruct (armed_after_clear l Idle x Hrun) as [(y & Habs & _)|(a & b & -> & _)].
  - discriminate.
  - exists a, b. reflexivity.
Qed.

Lemma in_flight_to_armed l :
  forall a x, flow_run (In_flight a) l = Some (Armed x) ->
  exists l1 f l2 l3, l = l1 ++ Read f :: l2 ++ Cleared :: l3 /\ f <> 0.
Proof.
  induction l as [|o l IH]; intros a x Hrun; cbn in Hrun; [discriminate|].
  destruct o as [| p sg | f | | | m]; cbn in Hrun; try discriminate.
  - destruct (Z.eqb_spec f 0) as [Hf|Hf].
    + destruct (IH _ _ Hrun) as (l1 & f' & l2 & l3 & -> & Hf').
      exists (Read f :: l1), f', l2, l3. auto.
    + destruct a; [|discriminate].
      destruct (idle_to_armed _ _ Hrun) as (b & d & ->).
      exists [], f, b, d. auto.
  - destruct (IH _ _ Hrun) as (l1 & f' & l2 & l3 & -> & Hf').
    exists (Slept :: l1), f', l2, l3. auto.
  - destruct (IH _ _ Hrun) as (l1 & f' & l2 & l3 & -> & Hf').
    exists (Handled :: l1), f', l2, l3. auto.
  - destruct (IH _ _ Hrun) as (l1 & f' & l2 & l3 & -> & Hf').
    exists (Reported m :: l1), f', l2, l3. auto.
Qed.

(** The flag is not read set unless the handler has run since it was
    cleared. *)
Lemma acked_by_handler l :
  forall q, flow_run q l = Some (In_flight true) ->
  q = Armed false \/ q = In_flight false ->
  In Handled l \/ In Cleared l.
Proof.
  induction l as [|o l IH]; intros q Hrun Hq; cbn in Hrun.
  - destruct Hq as [-> | ->]; discriminate.
  - destruct o as [| p sg | f | | | m];
      try (left; left; reflexivity); try (right; left; reflexivity);
      destruct Hq as [-> | ->]; cbn in Hrun; try discriminate.
    + destruct (IH _ Hrun (or_intror eq_refl)) as [H|H]; [left|right]; right; exact H.
    + destruct (f =? 0); [|discriminate].
      destruct (IH _ Hrun (or_intror eq_refl)) as [H|H]; [left|right]; right; exact H.
    + destruct (IH _ Hrun (or_introl eq_refl)) as [H|H]; [left|right]; right; exact H.
    + destruct (IH _ Hrun (or_intror eq_refl)) as [H|H]; [left|right]; right; exact H.
    + destruct (IH _ Hrun (or_introl eq_refl)) as [H|H]; [left|right]; right; exact H.
    + destruct (IH _ Hrun (or_intror eq_refl)) as [H|H]; [left|right]; right; exact H.
Qed.

(** ** The invariant of the sender *)

Ltac after_step :=
  cbn [log goto note set_ack set_bit enter at_pc g_ack_received ack_handler];
  rewrite ?flow_of_snoc.

Lemma program_step_agrees r s s' q :
  program_step r s = Some s' ->
  flow_of (log s) = Some q -> agrees q s ->
  exists q', flow_of (log s') = Some q' /\ agrees q' s'.
Proof.
  unfold program_step, agrees. intros Hstep Hq Hag.
  destruct (at_pc s) eqn:Epc.
  - destruct (msg s) as [|c0 rest]; [|destruct (c0 =? 0)];
      injection Hstep as <-; exists q; after_step; auto.
  - destruct (bit s >=? 0); [|destruct (final s)];
      injection Hstep as <-; exists q; after_step; auto.
  - injection Hstep as <-. subst q. exists (Armed false). after_step. rewrite Hq.
    split; [reflexivity|]. exists false. split; [reflexivity|]. intros H. contradiction.
  - destruct Hag as (a & -> & Ha). cbv zeta in Hstep.
    destruct (r =? -1); injection Hstep as <-; exists (In_flight a); after_step;
      rewrite Hq; cbn; (split; [reflexivity|]); exists a; auto.
  - destruct Hag as (a & -> & Ha). cbv zeta in Hstep.
    destruct (Z.eqb_spec (g_ack_received s) 0) as [E|E]; injection Hstep as <-.
    + exists (In_flight a). after_step. rewrite Hq. cbn. rewrite E. cbn.
      split; [reflexivity|]. exists a. split; [reflexivity|]. intros H. contradiction.
    + exists Idle. after_step. rewrite Hq. cbn. rewrite (Ha E).
      destruct (Z.eqb_spec (g_ack_received s) 0); [contradiction|]. auto.
  - injection Hstep as <-. exists q. after_step. rewrite Hq.
    destruct Hag as (a & -> & Ha). cbn. split; [reflexivity|]. exists a. auto.
  - injection Hstep as <-. exists q. after_step. rewrite Hq. subst q. cbn. auto.
  - discriminate.
  - discriminate.
Qed.

Lemma ack_handler_agrees sig s q :
  running s ->
  flow_of (log s) = Some q -> agrees q s ->
  exists q', flow_of (log (ack_handler sig s)) = Some q' /\ agrees q' (ack_handler sig s).
Proof.
  unfold running, agrees. intros Hrun Hq Hag. after_step. rewrite Hq.
  destruct (at_pc s); try contradiction;
    try (subst q; exists Idle; cbn; auto; fail);
    destruct Hag as (a & -> & _); cbn; eexists; (split; [reflexivity|]);
    exists true; auto.
Qed.

Lemma flow_invariant s0 s :
  reachable s0 s ->
  (exists q0, flow_of (log s0) = Some q0 /\ agrees q0 s0) ->
  exists q, flow_of (log s) = Some q /\ agrees q s.
Proof.
  intros Hreach H0. induction Hreach as [|s s' _ IH Hstep]; [exact H0|].
  destruct IH as (q & Hq & Hag). destruct Hstep as [r s s' Hp|sig s Hrun].
  - exact (program_step_agrees r s s' q Hp Hq Hag).
  - exact (ack_handler_agrees sig s q Hrun Hq Hag).
Qed.

Lemma start_agrees pid m :
  exists q0, flow_of (log (start pid m)) = Some q0 /\ agrees q0 (start pid m).
Proof. exists Idle. split; reflexivity. Qed.

(** The scheduler [fair] only makes steps of the system. *)
Lemma fair_reachable s0 n : forall s, reachable s0 s -> reachable s0 (fair n s).
Proof.
  induction n as [|n IH]; intros s Hs; cbn [fair]; [exact Hs|].
  destruct (fair_step s) as [s'|] eqn:E; [|exact Hs].
  apply IH. apply (reach_step s0 s s' Hs).
  unfold fair_step in E. destruct (at_pc s) eqn:Epc;
    try (exact (step_program 0 s s' E)).
  destruct (g_ack_received s =? 0); [|exact (step_program 0 s s' E)].
  injection E as <-. apply step_signal. unfold running. rewrite Epc. exact I.
Qed.

Lemma flow_run_split q l1 o l2 q' :
  flow_run q (l1 ++ o :: l2) = Some q' ->
  exists q1 q2,
    flow_run q l1 = Some q1 /\ flow_step q1 o = Some q2 /\ flow_run q2 l2 = Some q'.
Proof.
  rewrite flow_run_app. destruct (flow_run q l1) as [q1|]; [|discriminate].
  cbn. destruct (flow_step q1 o) as [q2|] eqn:E; [|discriminate].
  intros H. exists q1, q2. auto.
Qed.

Lemma sent_from_armed q p sg q' : flow_step q (Sent p sg) = Some q' -> exists a, q = Armed a.
Proof. destruct q as [|a|a]; cbn; try discriminate. exists a. reflexivity. Qed.

(** C3. In every state the sender reaches, whenever the acknowledgment
    handler runs: the flag was cleared before each bit was sent, after the
    bit before it; between two bits sent the flag was read set and then
    cleared again; the flag is read set only after the handler has run since
    its last clearing; and the bits sent exceed the acknowledgments seen by
    at most one. *)
Theorem stop_and_wait pid m s :
  reachable (start pid m) s ->
  (forall l1 p sg l2,
     log s = l1 ++ Sent p sg :: l2 ->
     exists a b, l1 = a ++ Cleared :: b /\ filter is_sent b = [])
  /\ (forall l1 p sg l2 p' sg' l3,
        log s = l1 ++ Sent p sg :: l2 ++ Sent p' sg' :: l3 ->
        exists a f b d, l2 = a ++ Read f :: b ++ Cleared :: d /\ f <> 0)
  /\ (forall l1 l2 f l3,
        log s = l1 ++ Cleared :: l2 ++ Read f :: l3 ->
        f <> 0 -> ~ In Cleared l2 -> In Handled l2)
  /\ (seen (log s) <= sent (log s) <= seen (log s) + 1)%nat
  /\ (sent (log s) <= cleared (log s) <= sent (log s) + 1)%nat.
Proof.
  intros Hreach.
  destruct (flow_invariant _ _ Hreach (start_agrees pid m)) as (q & Hq & _).
  unfold flow_of in Hq. split; [|split; [|split]].
  - intros l1 p sg l2 Hlog. rewrite Hlog in Hq.
    destruct (flow_run_split _ _ _ _ _ Hq) as (q1 & q2 & H1 & H2 & _).
    destruct (sent_from_armed _ _ _ _ H2) as (x & ->).
    destruct (armed_after_clear _ _ _ H1) as [(y & Habs & _)|H]; [discriminate|exact H].
  - intros l1 p sg l2 p' sg' l3 Hlog. rewrite Hlog in Hq.
    destruct (flow_run_split _ _ _ _ _ Hq) as (q1 & q2 & _ & H2 & H3).
    destruct (sent_from_armed _ _ _ _ H2) as (x & ->). cbn in H2. injection H2 as <-.
    destruct (flow_run_split _ _ _ _ _ H3) as (q3 & q4 & H4 & H5 & _).
    destruct (sent_from_armed _ _ _ _ H5) as (y & ->).
    destruct (in_flight_to_armed _ _ _ H4) as (a & f & b & d & E & Hf).
    exists a, f, b, d. auto.
  - intros l1 l2 f l3 Hlog Hf Hnc. rewrite Hlog in Hq.
    destruct (flow_run_split _ _ _ _ _ Hq) as (q1 & q2 & _ & H2 & H3).
    assert (q2 = Armed false) as ->
      by (destruct q1; cbn in H2; try discriminate; injection H2 as <-; reflexivity).
    destruct (flow_run_split _ _ _ _ _ H3) as (q3 & q4 & H4 & H5 & _).
    assert (q3 = In_flight true) as ->.
    { destruct q3 as [|a|a]; cbn in H5; try discriminate.
      destruct (Z.eqb_spec f 0); [contradiction|]. destruct a; [reflexivity|discriminate]. }
    destruct (acked_by_handler _ _ H4 (or_introl eq_refl)) as [H|H];
      [exact H|contradiction].
  - destruct (flow_run_balance _ _ _ Hq) as [H1 H2]. cbn [pending armed] in H1, H2.
    destruct q; cbn [pending armed] in H1, H2; lia.
Qed.

Lemma run_reachable s0 sched : forall s, reachable s0 s -> reachable s0 (run sched s).
Proof.
  induction sched as [|[r|sig] sched IH]; intros s Hs; cbn [run]; [exact Hs| |].
  - destruct (program_step r s) as [s'|] eqn:E; [|exact Hs].
    apply IH. exact (reach_step s0 s s' Hs (step_program r s s' E)).
  - destruct (at_pc s) eqn:Epc; try exact Hs;
      apply IH; apply (reach_step s0 s _ Hs); apply step_signal;
      unfold running; rewrite Epc; exact I.
Qed.

(** The message A under the scheduler [fair], up to its second bit. *)
Lemma stop_and_wait_witness :
  let s := fair 10 (start 4242 (cstr "A")) in
  log s = [Cleared; Sent 4242 SIGUSR2; Handled; Read 1; Slept; Cleared; Sent 4242 SIGUSR1]
  /\ (exists a b,
        [Cleared; Sent 4242 SIGUSR2; Handled; Read 1; Slept; Cleared] = a ++ Cleared :: b
        /\ filter is_sent b = [])
  /\ (exists a f b d, [Handled; Read 1; Slept; Cleared] = a ++ Read f :: b ++ Cleared :: d
                      /\ f <> 0)
  /\ In Handled [Sent 4242 SIGUSR2; Handled]
  /\ (seen (log s) <= sent (log s) <= seen (log s) + 1)%nat
  /\ (sent (log s) <= cleared (log s) <= sent (log s) + 1)%nat.
Proof.
  cbv zeta.
  destruct (stop_and_wait 4242 (cstr "A") (fair 10 (start 4242 (cstr "A"))))
    as (Hclear & Hnext & Hack & Hflight & Harmed).
  - apply fair_reachable. apply reach_start.
  - split; [reflexivity|]. split; [|split; [|split; [|split]]].
    + apply (Hclear [Cleared; Sent 4242 SIGUSR2; Handled; Read 1; Slept; Cleared]
               4242 SIGUSR1 []). reflexivity.
    + apply (Hnext [Cleared] 4242 SIGUSR2 [Handled; Read 1; Slept; Cleared]
               4242 SIGUSR1 []). reflexivity.
    + apply (Hack [] [Sent 4242 SIGUSR2; Handled] 1
               [Slept; Cleared; Sent 4242 SIGUSR1]).
      * reflexivity.
      * discriminate.
      * intros [H|[H|[]]]; discriminate.
    + exact Hflight.
    + exact Harmed.
Defined.

(** The whole message under [fair]. *)
Lemma fair_run_reaches :
  reachable (start 4242 (cstr "A")) (fair 200 (start 4242 (cstr "A"))).
Proof. apply fair_reachable, reach_start. Qed.

(** That run returns from [send_message] having sent, acknowledged and
    cleared sixteen times, and its first observations are those of one bit. *)
Example fair_run_complete :
  let s := fair 200 (start 4242 (cstr "A")) in
  at_pc s = Returned
  /\ sent_signals (log s) = tag 4242 (message_signals (cstr "A"))
  /\ sent (log s) = 16%nat /\ seen (log s) = 16%nat /\ cleared (log s) = 16%nat
  /\ firstn 6 (log s) = [Cleared; Sent 4242 SIGUSR2; Handled; Read 1; Slept; Cleared].
Proof. vm_compute. repeat split; reflexivity. Qed.

(** A run in which the acknowledgment comes late: the sender polls and
    sleeps, and does not send. *)
Example late_ack_run :
  let s := run [Program 0; Program 0; Program 0; Program 0; Program 0; Program 0;
                Program 0; Program 0; Signal SIGUSR1; Program 0]
             (start 4242 (cstr "A")) in
  reachable (start 4242 (cstr "A")) s
  /\ log s = [Cleared; Sent 4242 SIGUSR2; Read 0; Slept; Read 0; Slept; Handled; Read 1]
  /\ at_pc s = Sleep_after.
Proof.
  split; [apply run_reachable, reach_start|]. split; reflexivity.
Qed.

(** A run in which the second [kill] fails: the sender reports and exits,
    and no schedule moves it further. *)
Example failed_kill_run :
  let s := run [Program 0; Program 0; Program 0; Program 0; Signal SIGUSR1; Program 0;
                Program 0; Program 0; Program 0; Program (-1)]
             (start 4242 (cstr "A")) in
  log s = [Cleared; Sent 4242 SIGUSR2; Handled; Read 1; Slept; Cleared; Sent 4242 SIGUSR1;
           Reported "Failed to send SIGUSR1"]
  /\ at_pc s = Exited EXIT_FAILURE
  /\ forall s', ~ step s s'.
Proof.
  split; [reflexivity|]. split; [reflexivity|].
  intros s' Hstep. inversion Hstep as [r s0 s1 Hp|sig s0 Hrun]; subst.
  - discriminate Hp.
  - exact Hrun.
Qed.

Lemma sent_signals_snoc l o :
  sent_signals (l ++ [o]) =
    sent_signals l ++ match o with Sent pid sig => [(pid, sig)] | _ => [] end.
Proof. unfold sent_signals. rewrite flat_map_app. cbn. rewrite app_nil_r. reflexivity. Qed.

Lemma position_signals_step c0 b :
  0 <= b ->
  position_signals c0 (Z.to_nat (b + 1)) =
    signal_of_bit (Z.testbit c0 b) :: position_signals c0 (Z.to_nat (b - 1 + 1)).
Proof.
  intros Hb. replace (Z.to_nat (b + 1)) with (S (Z.to_nat b)) by lia.
  replace (b - 1 + 1) with b by lia.
  unfold position_signals. cbn [down map]. rewrite Z2Nat.id by lia. reflexivity.
Qed.

Ltac fields :=
  cbn [log goto note set_ack set_bit enter at_pc g_ack_received ack_handler
       target msg final ch bit].

Lemma program_step_on_course pid m r s s' :
  program_step r s = Some s' -> on_course pid m s -> on_course pid m s'.
Proof.
  unfold program_step, on_course, bit_in_range, remaining.
  intros Hstep (Ht & Hb & rest & Hsent & Hrest).
  destruct (at_pc s) eqn:Epc.
  - assert (Hr : rest = message_signals (msg s)) by (apply Hrest; discriminate).
    destruct (msg s) as [|c0 tl] eqn:Em; [|destruct (c0 =? 0) eqn:Ec];
      injection Hstep as <-; fields; (split; [exact Ht|]); (split; [lia|]);
      exists rest; (split; [exact Hsent|]); intros _; rewrite Hr;
      cbn [message_signals]; rewrite ?Ec, ?app_nil_r; reflexivity.
  - assert (Hr : rest = position_signals (ch s) (Z.to_nat (bit s + 1))
                        ++ (if final s then [] else message_signals (msg s)))
      by (apply Hrest; discriminate).
    destruct (Z.geb_spec (bit s) 0) as [Hge|Hlt]; [|destruct (final s) eqn:Ef];
      injection Hstep as <-; fields; (split; [exact Ht|]).
    + split; [lia|]. exists rest. split; [exact Hsent|]. intros _. rewrite Hr, ?Ef. reflexivity.
    + split; [exact I|]. exists rest. split; [exact Hsent|]. intros _. rewrite Hr.
      replace (Z.to_nat (bit s + 1)) with 0%nat by lia. reflexivity.
    + split; [exact I|]. exists rest. split; [exact Hsent|]. intros _. rewrite Hr.
      replace (Z.to_nat (bit s + 1)) with 0%nat by lia. reflexivity.
  - injection Hstep as <-. fields. split; [exact Ht|]. split; [exact Hb|].
    exists rest. rewrite sent_signals_snoc, app_nil_r. split; [exact Hsent|].
    intros _. apply Hrest. discriminate.
  - assert (Hr : rest = position_signals (ch s) (Z.to_nat (bit s + 1))
                        ++ (if final s then [] else message_signals (msg s)))
      by (apply Hrest; discriminate).
    rewrite position_signals_step in Hr by lia.
    cbv zeta in Hstep. rewrite shift_and_testbit in Hstep by lia.
    assert (Hsig : (if Z.testbit (ch s) (bit s) then SIGUSR1 else SIGUSR2)
                   = signal_of_bit (Z.testbit (ch s) (bit s))) by reflexivity.
    rewrite Hsig in Hstep.
    destruct (r =? -1); injection Hstep as <-; fields; (split; [exact Ht|]).
    + split; [exact I|]. eexists. rewrite !sent_signals_snoc, app_nil_r, Ht.
      split; [|intros H; exfalso; exact (H EXIT_FAILURE eq_refl)].
      rewrite Hsent, Hr. cbn [tag map]. rewrite <- app_assoc. reflexivity.
    + split; [lia|]. eexists. rewrite sent_signals_snoc, Ht.
      split; [|intros _; reflexivity].
      rewrite Hsent, Hr. cbn [tag map]. rewrite <- app_assoc. reflexivity.
  - cbv zeta in Hstep.
    destruct (g_ack_received s =? 0); injection Hstep as <-; fields;
      (split; [exact Ht|]); (split; [exact Hb|]); exists rest;
      rewrite sent_signals_snoc, app_nil_r; (split; [exact Hsent|]);
      intros _; apply Hrest; discriminate.
  - injection Hstep as <-. fields. split; [exact Ht|]. split; [exact Hb|].
    exists rest. rewrite sent_signals_snoc, app_nil_r. split; [exact Hsent|].
    intros _. apply Hrest. discriminate.
  - injection Hstep as <-. fields. split; [exact Ht|]. split; [exact Hb|].
    exists rest. rewrite sent_signals_snoc, app_nil_r. split; [exact Hsent|].
    intros _. apply Hrest. discriminate.
  - discriminate.
  - discriminate.
Qed.

Lemma ack_handler_on_course pid m sig s :
  on_course pid m s -> on_course pid m (ack_handler sig s).
Proof.
  unfold on_course, bit_in_range, remaining. fields.
  intros (Ht & Hb & rest & Hsent & Hrest).
  split; [exact Ht|]. split; [exact Hb|]. exists rest.
  rewrite sent_signals_snoc, app_nil_r. auto.
Qed.

(** The interleaved sender sends the signals of the message, in order, to
    its target: at any moment a prefix of them, and all of them once
    [send_message] has returned. These are the signals [send_message] of the
    sequential model sends when no call fails. *)
Lemma interleaved_signals pid m s :
  reachable (start pid m) s ->
  (exists rest, tag pid (message_signals m) = sent_signals (log s) ++ tag pid rest)
  /\ (at_pc s = Returned -> sent_signals (log s) = tag pid (message_signals m)).
Proof.
  intros Hreach.
  assert (Hc : on_course pid m s).
  { induction Hreach as [|s s' _ IH Hstep].
    - unfold on_course, bit_in_range, remaining. cbn.
      split; [reflexivity|]. split; [exact I|]. exists (message_signals m). auto.
    - destruct Hstep as [r s s' Hp|sig s Hrun].
      + exact (program_step_on_course pid m r s s' Hp IH).
      + exact (ack_handler_on_course pid m sig s IH). }
  destruct Hc as (_ & _ & rest & Hsent & Hrest). split.
  - exists rest. exact Hsent.
  - intros Hret. rewrite Hsent.
    rewrite (Hrest ltac:(intros st; rewrite Hret; discriminate)).
    unfold remaining. rewrite Hret. cbn. rewrite app_nil_r. reflexivity.
Qed.

Lemma sequential_signals sys ack_after pid m :
  all_ok sys -> acks_arrive ack_after ->
  kills (trace_of (send_message sys ack_after pid m client_init []))
  = tag pid (message_signals m).
Proof.
  intros Hok Hack.
  destruct (send_message_ok sys ack_after Hok Hack pid m client_init [])
    as (s' & h' & E & K).
  rewrite E. exact K.
Qed.

(** ** The interleaved sender terminates when acknowledged *)

Lemma fair_stuck n s : fair_step s = None -> fair n s = s.
Proof. intros E. destruct n; cbn [fair]; [reflexivity|]. rewrite E. reflexivity. Qed.

Lemma fair_add n k : forall s, fair (n + k) s = fair k (fair n s).
Proof.
  induction n as [|n IH]; intros s; cbn [fair Nat.add]; [reflexivity|].
  destruct (fair_step s) as [s'|] eqn:E; [apply IH|].
  symmetry. apply fair_stuck. exact E.
Qed.

(** One call of [send_char_bits] takes 49 steps: six for each bit and the
    last test of the loop. *)
Lemma fair_unit s :
  at_pc s = Bit_test -> bit s = 7 ->
  at_pc (fair 49 s) = (if final s then Returned else Msg_test)
  /\ msg (fair 49 s) = msg s.
Proof.
  destruct s as [p t m f c0 b g l]. cbn [at_pc bit final msg].
  intros -> ->. destruct f; vm_compute; split; reflexivity.
Qed.

Lemma fair_first n s s' : fair_step s = Some s' -> fair (1 + n) s = fair n s'.
Proof. intros E. cbn [Nat.add fair]. rewrite E. reflexivity. Qed.

Lemma fair_from_msg_test m :
  forall s, at_pc s = Msg_test -> msg s = m ->
  at_pc (fair (50 * (List.length (content m) + 1)) s) = Returned.
Proof.
  induction m as [|c0 rest IH]; intros s Hpc Hm.
  - assert (E : fair_step s = Some (enter 0 [] true s))
      by (unfold fair_step, program_step; rewrite Hpc, Hm; reflexivity).
    change (50 * (List.length (content []) + 1))%nat with (1 + 49)%nat.
    rewrite (fair_first 49 s _ E).
    destruct (fair_unit (enter 0 [] true s) eq_refl eq_refl) as [H _]. exact H.
  - cbn [content]. destruct (c0 =? 0) eqn:Ec.
    + assert (E : fair_step s = Some (enter 0 (c0 :: rest) true s))
        by (unfold fair_step, program_step; rewrite Hpc, Hm, Ec; reflexivity).
      change (50 * (List.length (@nil Z) + 1))%nat with (1 + 49)%nat.
      rewrite (fair_first 49 s _ E).
      destruct (fair_unit (enter 0 (c0 :: rest) true s) eq_refl eq_refl) as [H _]. exact H.
    + assert (E : fair_step s = Some (enter c0 rest false s))
        by (unfold fair_step, program_step; rewrite Hpc, Hm, Ec; reflexivity).
      replace (50 * (List.length (c0 :: content rest) + 1))%nat
        with (1 + (49 + 50 * (List.length (content rest) + 1)))%nat by (cbn [List.length]; lia).
      rewrite (fair_first _ s _ E), fair_add.
      destruct (fair_unit (enter c0 rest false s) eq_refl eq_refl) as [Hpc' Hm'].
      apply IH; [exact Hpc'|exact Hm'].
Qed.

(** Under the scheduler [fair] the sender returns from [send_message],
    whatever the message, having sent its signals. *)
Lemma fair_completes pid m :
  let s := fair (50 * (List.length (content m) + 1)) (start pid m) in
  at_pc s = Returned /\ sent_signals (log s) = tag pid (message_signals m).
Proof.
  cbv zeta.
  assert (Hret : at_pc (fair (50 * (List.length (content m) + 1)) (start pid m)) = Returned)
    by (apply fair_from_msg_test; reflexivity).
  split; [exact Hret|].
  apply (interleaved_signals pid m); [|exact Hret].
  apply fair_reachable, reach_start.
Qed.

End Stop_and_wait.

(** * Further properties of the receiver *)





Lemma session_received msgs :
  Forall (Forall is_char) msgs ->
  acc_run (session_signals msgs) (7, 0) = (7, 0)
  /\ outs (session_signals msgs) (7, 0) = session_output msgs.
Proof.
  induction 1 as [|m rest Hm _ IH]; cbn [session_signals session_output flat_map].
  - auto.
  - destruct (message_received m Hm) as [Ea Eo]. destruct IH as [IHa IHo].
    fold (session_signals rest). fold (session_output rest).
    rewrite acc_run_app, outs_app, Ea, Eo, IHo. auto.
Qed.

(** X8. Messages sent one after the other, by whichever processes, are
    written one after the other, each followed by its newline: after a
    terminator the receiver goes on with the next message. *)
Theorem sessions_decode sys ns msgs st h :
  all_ok sys -> Forall (Forall is_char) msgs ->
  map fst ns = session_signals msgs ->
  bit st = 7 -> c st = 0 ->
  let r := deliver sys ns st h in
  result r = Ret tt
  /\ written STDOUT_FILENO (trace_of r) = written STDOUT_FILENO h ++ session_output msgs
  /\ bit (state_of r) = 7 /\ c (state_of r) = 0.
Proof.
  intros Hok Hmsgs Hsig Hb Hc r.
  destruct (deliver_ok sys Hok ns st h) as (st' & h' & E & Eacc & Ew & _).
  destruct (session_received msgs Hmsgs) as [Ea Eo].
  rewrite Hsig, Hb, Hc in Eacc, Ew. rewrite Ea in Eacc. rewrite Eo in Ew.
  unfold r. rewrite E. unfold result, state_of, trace_of. cbn [fst snd].
  inversion Eacc. auto.
Qed.

(** Hi from process 77, then an empty message from process 78. *)
Lemma sessions_decode_witness :
  let ns := map (fun sg => (sg, 77)) (message_signals (cstr "Hi"))
            ++ map (fun sg => (sg, 78)) (message_signals []) in
  let r := deliver sys_ok ns server_init [] in
  result r = Ret tt
  /\ written STDOUT_FILENO (trace_of r)
     = written STDOUT_FILENO [] ++ session_output [cstr "Hi"; []]
  /\ bit (state_of r) = 7 /\ c (state_of r) = 0.
Proof.
  apply (sessions_decode sys_ok _ [cstr "Hi"; []] server_init []).
  - env_ok.
  - repeat constructor; unfold is_char; cbn; lia.
  - reflexivity.
  - reflexivity.
  - reflexivity.
Defined.

(** X7. Round trip for every C string, printable or not: whatever the
    non-zero values of its characters, the signals the sender emits for it
    make the receiver write these characters and one newline. *)
Theorem round_trip_bytes csys ack_after ssys pid from msg :
  Forall is_char msg -> Forall (fun ch => ch <> 0) msg ->
  all_ok csys -> acks_arrive ack_after -> all_ok ssys ->
  let sent := signals_sent (trace_of (send_message csys ack_after pid msg client_init [])) in
  let r := deliver ssys (map (fun sg => (sg, from)) sent) server_init [] in
  result r = Ret tt
  /\ written STDOUT_FILENO (trace_of r) = msg ++ [NL].
Proof.
  intros Hchar Hnn Hc Ha Hs sent r.
  destruct (send_message_ok csys ack_after Hc Ha pid msg client_init [])
    as (s' & h' & Esend & Ekills).
  assert (Esent : sent = message_signals msg).
  { unfold sent. rewrite Esend. unfold trace_of. cbn [snd].
    rewrite signals_of_kills, Ekills. cbn [kills flat_map app].
    apply map_snd_tag. }
  destruct (receive_message ssys from msg server_init [] Hs Hchar eq_refl eq_refl)
    as (st' & t & Erun & _ & _ & Ew).
  unfold r. rewrite Esent, Erun. unfold result, trace_of. cbn [fst snd].
  split; [reflexivity|].
  unfold STDOUT_FILENO. rewrite Ew, (content_no_nul _ Hnn). reflexivity.
Qed.

(** The two bytes of a UTF-8 e-acute, a tab and a DEL. *)
Lemma round_trip_bytes_witness :
  written STDOUT_FILENO
    (trace_of (deliver sys_ok
       (map (fun sg => (sg, 77))
          (signals_sent
             (trace_of (send_message sys_ok ack_now 4242 [-61; -87; 9; 127] client_init []))))
       server_init []))
  = [-61; -87; 9; 127; NL].
Proof.
  apply (round_trip_bytes sys_ok ack_now sys_ok 4242 77 [-61; -87; 9; 127]); try env_ok.
  - repeat constructor; unfold is_char; lia.
  - repeat constructor; lia.
Defined.

Lemma set_checked :
  forallb (fun a => forallb (fun b => forallb (check_set a b) all_bits) all_bits)
    all_chars = true.
Proof. vm_compute. reflexivity. Qed.

(** X11. SIGUSR1 sets the bit of the accumulator at the current position,
    whatever the accumulator held, keeps its other bits, leaves a [char],
    and decrements the counter. *)
Theorem sigusr1_sets_bit b a :
  0 <= b <= 7 -> is_char a ->
  let a' := snd (handle_received_bit SIGUSR1 b a) in
  fst (handle_received_bit SIGUSR1 b a) = b - 1
  /\ Z.testbit a' b = true
  /\ (forall j, 0 <= j <= 7 -> j <> b -> Z.testbit a' j = Z.testbit a j)
  /\ is_char a'.
Proof.
  intros Hb Ha. cbv zeta.
  pose proof (for_all_chars _ set_checked a Ha) as H1. cbv beta in H1.
  pose proof (for_all_bits _ H1 b Hb) as H2. cbv beta in H2.
  split; [reflexivity|]. split; [|split].
  - pose proof (for_all_bits _ H2 0 ltac:(lia)) as H3. unfold check_set in H3.
    apply andb_prop in H3 as [H3 _]. apply andb_prop in H3 as [H3 _].
    apply andb_prop in H3 as [H3 _]. exact H3.
  - intros j Hj Hne. pose proof (for_all_bits _ H2 j Hj) as H3.
    unfold check_set in H3.
    apply andb_prop in H3 as [H3 _]. apply andb_prop in H3 as [H3 _].
    apply andb_prop in H3 as [_ H3].
    destruct (Z.eqb_spec j b); [contradiction|]. apply Bool.eqb_prop, H3.
  - pose proof (for_all_bits _ H2 0 ltac:(lia)) as H3. unfold check_set in H3.
    apply andb_prop in H3 as [H3 Hhi]. apply andb_prop in H3 as [_ Hlo].
    unfold is_char. lia.
Qed.

(** Position 7 of 0x41: the accumulator becomes negative, bit 0 is kept. *)
Lemma sigusr1_sets_bit_witness :
  fst (handle_received_bit SIGUSR1 7 65) = 7 - 1
  /\ Z.testbit (snd (handle_received_bit SIGUSR1 7 65)) 7 = true
  /\ Z.testbit (snd (handle_received_bit SIGUSR1 7 65)) 0 = Z.testbit 65 0
  /\ is_char (snd (handle_received_bit SIGUSR1 7 65)).
Proof.
  destruct (sigusr1_sets_bit 7 65) as (H1 & H2 & H3 & H4);
    [lia | unfold is_char; lia |].
  split; [exact H1|]. split; [exact H2|]. split; [|exact H4].
  apply H3; lia.
Defined.

Ltac options :=
  split; [|split];
  first [left; reflexivity | right; reflexivity | right; eexists; reflexivity].

(** The calls the handler may make: one byte to standard output, SIGUSR1 to
    the sender, and the error report. *)
Lemma handler_events_case sys sig si_pid st h :
  exists t,
    trace_of (signal_handler sys sig si_pid st h) = h ++ t
    /\ result (signal_handler sys sig si_pid st h) <> Hang
    /\ (exists w k rep,
          t = w ++ k ++ rep
          /\ (w = [] \/ exists byte, w = [Write STDOUT_FILENO [byte]])
          /\ (k = [] \/ k = [Kill si_pid SIGUSR1])
          /\ (rep = [] \/ exists msg, rep = report msg)).
Proof.
  rewrite signal_handler_run. cbv zeta. unfold STDOUT_FILENO.
  set (c1 := snd (handle_received_bit sig (bit st) (c st))).
  destruct (bit st - 1 <? 0).
  - destruct (sys h (Write 1 [byte_out c1]) =? -1).
    + eexists. unfold trace_of, result. cbn [fst snd].
      split; [reflexivity|]. split; [discriminate|].
      exists [Write 1 [byte_out c1]], [], (report "Server: write failed").
      split; [reflexivity|]. options.
    + destruct (sys (h ++ [Write 1 [byte_out c1]]) (Kill si_pid SIGUSR1) =? -1).
      * eexists. unfold trace_of, result. cbn [fst snd].
        split; [reflexivity|]. split; [discriminate|].
        exists [Write 1 [byte_out c1]], [Kill si_pid SIGUSR1], (report "Server: ACK failed").
        split; [reflexivity|]. options.
      * eexists. unfold trace_of, result. cbn [fst snd].
        split; [reflexivity|]. split; [discriminate|].
        exists [Write 1 [byte_out c1]], [Kill si_pid SIGUSR1], [].
        split; [reflexivity|]. options.
  - destruct (sys h (Kill si_pid SIGUSR1) =? -1).
    + eexists. unfold trace_of, result. cbn [fst snd].
      split; [reflexivity|]. split; [discriminate|].
      exists [], [Kill si_pid SIGUSR1], (report "Server: ACK failed").
      split; [reflexivity|]. options.
    + eexists. unfold trace_of, result. cbn [fst snd].
      split; [reflexivity|]. split; [discriminate|].
      exists [], [Kill si_pid SIGUSR1], [].
      split; [reflexivity|]. options.
Qed.

(** X12. Whatever the calls return, an invocation of the handler ends (it
    returns or the process exits) after at most one [write], of one byte to
    standard output, then at most one [kill], of SIGUSR1 to the sender of
    the notification, then at most one error report, and nothing else. *)
Theorem handler_is_bounded sys sig si_pid st h :
  let r := signal_handler sys sig si_pid st h in
  result r <> Hang
  /\ exists w k rep,
       trace_of r = h ++ w ++ k ++ rep
       /\ (w = [] \/ exists byte, w = [Write STDOUT_FILENO [byte]])
       /\ (k = [] \/ k = [Kill si_pid SIGUSR1])
       /\ (rep = [] \/ exists msg, rep = report msg).
Proof.
  cbv zeta.
  destruct (handler_events_case sys sig si_pid st h) as (t & Et & Hr & w & k & rep & -> & H).
  split; [exact Hr|]. exists w, k, rep. split; [exact Et|exact H].
Qed.





(** * Further properties of the sender *)

(** ** What a computation may emit *)

Lemma bind_ret_eq {S A B} (m : M S A) (k : A -> M S B) s h b s' h' :
  bind m k s h = (Ret b, s', h') ->
  exists a s1 h1, m s h = (Ret a, s1, h1) /\ k a s1 h1 = (Ret b, s', h').
Proof.
  unfold bind. destruct (m s h) as [[[a|x|] s1] h1]; intros E; try discriminate.
  exists a, s1, h1. auto.
Qed.

Section Emits_only.

Variable P : event -> Prop.

Lemma emits_only_ret {S A} (Q : A -> Prop) a : Q a -> emits_only P Q (@ret S A a).
Proof.
  intros Hq s h. exists []. unfold trace_of, result, ret. cbn [fst snd].
  rewrite app_nil_r. split; [reflexivity|]. split; [constructor|].
  intros a' E. injection E as <-. exact Hq.
Qed.

Lemma emits_only_exit {S A} (Q : A -> Prop) st : emits_only P Q (@exit S A st).
Proof.
  intros s h. exists []. unfold trace_of, result, exit. cbn [fst snd].
  rewrite app_nil_r. split; [reflexivity|]. split; [constructor|discriminate].
Qed.

Lemma emits_only_put {S} (Q : unit -> Prop) (s0 : S) : Q tt -> emits_only P Q (put s0).
Proof.
  intros Hq s h. exists []. unfold trace_of, result, put. cbn [fst snd].
  rewrite app_nil_r. split; [reflexivity|]. split; [constructor|].
  intros [] _. exact Hq.
Qed.

Lemma emits_only_emit {S} (Q : unit -> Prop) e : P e -> Q tt -> emits_only P Q (@emit S e).
Proof.
  intros Hp Hq s h. exists [e]. unfold trace_of, result, emit. cbn [fst snd].
  split; [reflexivity|]. split; [repeat constructor; exact Hp|].
  intros [] _. exact Hq.
Qed.

Lemma emits_only_call sys {S} (Q : Z -> Prop) e :
  P e -> (forall r, Q r) -> emits_only P Q (@call sys S e).
Proof.
  intros Hp Hq s h. exists [e]. unfold trace_of, result, call. cbn [fst snd].
  split; [reflexivity|]. split; [repeat constructor; exact Hp|].
  intros a _. apply Hq.
Qed.

Lemma emits_only_wait ack_after (Q : unit -> Prop) :
  P (Usleep 100) -> Q tt -> emits_only P Q (wait_for_ack ack_after).
Proof.
  intros Hp Hq s h. unfold wait_for_ack. destruct (ack_after h) as [n|].
  - exists (repeat (Usleep 100) n). unfold trace_of, result. cbn [fst snd].
    split; [reflexivity|]. split.
    + apply Forall_forall. intros e He. apply repeat_spec in He. subst e. exact Hp.
    + intros [] _. exact Hq.
  - exists []. unfold trace_of, result. cbn [fst snd]. rewrite app_nil_r.
    split; [reflexivity|]. split; [constructor|discriminate].
Qed.

Lemma emits_only_bind {S A B} (Q : A -> Prop) (Q' : B -> Prop) (m : M S A) (k : A -> M S B) :
  emits_only P Q m -> (forall a, Q a -> emits_only P Q' (k a)) ->
  emits_only P Q' (bind m k).
Proof.
  intros Hm Hk s h. destruct (Hm s h) as (t & Et & Ht & Hq). unfold bind.
  destruct (m s h) as [[[a|st|] s1] h1] eqn:E; unfold trace_of, result in *;
    cbn [fst snd] in *; subst h1.
  - destruct (Hk a (Hq a eq_refl) s1 (h ++ t)) as (t' & Et' & Ht' & Hq').
    exists (t ++ t'). rewrite app_assoc. split; [exact Et'|].
    split; [apply Forall_app; auto|exact Hq'].
  - exists t. split; [reflexivity|]. split; [exact Ht|discriminate].
  - exists t. split; [reflexivity|]. split; [exact Ht|discriminate].
Qed.

Lemma emits_only_sys_error {S A} (Q : A -> Prop) msg :
  (forall s, P (Fprintf_stderr s)) -> (forall s, P (Perror s)) ->
  emits_only P Q (@sys_error S A msg).
Proof.
  intros H1 H2. unfold sys_error.
  apply (emits_only_bind (fun _ => True)); [apply emits_only_emit; auto|intros _ _].
  apply (emits_only_bind (fun _ => True)); [apply emits_only_emit; auto|intros _ _].
  apply emits_only_exit.
Qed.

Lemma emits_only_checked sys {S} (Q : unit -> Prop) e msg :
  P e -> (forall s, P (Fprintf_stderr s)) -> (forall s, P (Perror s)) -> Q tt ->
  emits_only P Q (r <- @call sys S e ;; if r =? -1 then sys_error msg else ret tt).
Proof.
  intros He H1 H2 Hq.
  apply (emits_only_bind (fun _ => True)); [apply emits_only_call; auto|intros r _].
  destruct (r =? -1); [apply emits_only_sys_error; assumption|apply emits_only_ret; exact Hq].
Qed.

End Emits_only.

(** ** The cases of [main] *)

Lemma client_main_cases sys ack_after (ft_atoi : cstring -> Z) (argv : list cstring) s h :
  let pid := ft_atoi (nth 1 argv []) in
  let install := Sigaction SIGUSR1 Ack_handler SA_RESTART in
  client_main sys ack_after ft_atoi argv s h =
    if negb (Z.of_nat (List.length argv) =? 3) then
      (Exit EXIT_FAILURE, s,
       h ++ [Fprintf_stderr ("Error: wrong format" ++ nl);
             Fprintf_stderr ("Usage: ./client <PID> <" ++ dq ++ "MESSAGE" ++ dq ++ ">" ++ nl)])
    else if pid <=? 0 then
      (Exit EXIT_FAILURE, s, h ++ [Fprintf_stderr ("Error: invalid PID." ++ nl)])
    else if sys h install =? -1 then
      (Exit EXIT_FAILURE, s, h ++ [install] ++ report "Client: sigaction failed")
    else
      (send_message sys ack_after pid (nth 2 argv []) ;;
       emit (Putstr_fd ("Message sent successfully!" ++ nl) STDIN_FILENO) ;;
       ret EXIT_SUCCESS) s (h ++ [install]).
Proof.
  cbv zeta. unfold client_main.
  pose proof (validate_input_client_run (Z.of_nat (List.length argv)) s h) as Ev.
  destruct (Z.of_nat (List.length argv) =? 3); cbn [negb].
  - rewrite (bind_ret_run _ _ _ _ _ _ _ Ev).
    unfold bind at 1. unfold get_server_pid_from_input. cbv zeta.
    destruct (ft_atoi (nth 1 argv []) <=? 0).
    + unfold bind, emit, exit. reflexivity.
    + unfold ret at 1. unfold bind at 1. unfold setup_ack_signal.
      unfold bind at 1. unfold call at 1.
      destruct (sys h (Sigaction SIGUSR1 Ack_handler SA_RESTART) =? -1).
      * rewrite sys_error_run. rewrite <- app_assoc. reflexivity.
      * unfold ret at 1. reflexivity.
  - rewrite (bind_exit_run _ _ _ _ _ _ _ Ev). reflexivity.
Qed.

(** X1. With a number of arguments other than three the sender prints the
    two usage lines on the error stream and exits with EXIT_FAILURE; it
    converts no id, installs no handler and sends no signal. *)
Theorem wrong_argument_count sys ack_after (ft_atoi : cstring -> Z) (argv : list cstring) s h :
  List.length argv <> 3%nat ->
  let r := client_main sys ack_after ft_atoi argv s h in
  result r = Exit EXIT_FAILURE
  /\ trace_of r =
       h ++ [Fprintf_stderr ("Error: wrong format" ++ nl);
             Fprintf_stderr ("Usage: ./client <PID> <" ++ dq ++ "MESSAGE" ++ dq ++ ">" ++ nl)].
Proof.
  intros Hlen r. unfold r. rewrite client_main_cases. cbv zeta.
  destruct (Z.eqb_spec (Z.of_nat (List.length argv)) 3) as [E|E]; [lia|].
  cbn [negb]. unfold result, trace_of. cbn [fst snd]. auto.
Qed.

(** The message forgotten, and the message given as two words. *)
Lemma wrong_argument_count_witness :
  (let r := client_main sys_ok ack_now atoi [cstr "./client"; cstr "4242"] client_init [] in
   result r = Exit EXIT_FAILURE /\ kills (trace_of r) = [])
  /\ (let r := client_main sys_ok ack_now atoi
                 [cstr "./client"; cstr "4242"; cstr "Hi"; cstr "there"] client_init [] in
      result r = Exit EXIT_FAILURE /\ kills (trace_of r) = []).
Proof.
  split; cbv zeta.
  - destruct (wrong_argument_count sys_ok ack_now atoi [cstr "./client"; cstr "4242"]
                client_init []) as [Hr Ht]; [cbn; lia|].
    split; [exact Hr|]. rewrite Ht. reflexivity.
  - destruct (wrong_argument_count sys_ok ack_now atoi
                [cstr "./client"; cstr "4242"; cstr "Hi"; cstr "there"]
                client_init []) as [Hr Ht]; [cbn; lia|].
    split; [exact Hr|]. rewrite Ht. reflexivity.
Defined.

(** ** What the sender emits *)

Section Sender_emits.

Variable P : event -> Prop.
Variable sys : list event -> event -> Z.
Variable ack_after : list event -> option nat.
Variable pid : Z.
Hypothesis P_one : P (Kill pid SIGUSR1).
Hypothesis P_zero : P (Kill pid SIGUSR2).
Hypothesis P_sleep : P (Usleep 100).
Hypothesis P_stderr : forall s, P (Fprintf_stderr s).
Hypothesis P_perror : forall s, P (Perror s).

Lemma send_char_loop_emits ch n :
  emits_only P (fun _ => True) (send_char_loop sys ack_after pid ch n).
Proof.
  induction n as [|n IH]; cbn [send_char_loop].
  - apply emits_only_ret. exact I.
  - apply (emits_only_bind P (fun _ => True)); [apply emits_only_put; exact I|intros _ _].
    apply (emits_only_bind P (fun _ => True)).
    + destruct (negb _); apply emits_only_checked; auto.
    + intros _ _.
      apply (emits_only_bind P (fun _ => True)); [apply emits_only_wait; auto|intros _ _].
      apply (emits_only_bind P (fun _ => True)); [apply emits_only_emit; auto|intros _ _].
      exact IH.
Qed.

Lemma send_message_emits msg :
  emits_only P (fun _ => True) (send_message sys ack_after pid msg).
Proof.
  induction msg as [|ch rest IH]; cbn [send_message]; unfold send_char_bits.
  - apply send_char_loop_emits.
  - destruct (ch =? 0); [apply send_char_loop_emits|].
    apply (emits_only_bind P (fun _ => True)); [apply send_char_loop_emits|intros _ _].
    exact IH.
Qed.

End Sender_emits.

Lemma Forall_filter_nil {A} (f : A -> bool) l :
  Forall (fun x => f x = false) l -> filter f l = [].
Proof.
  induction 1 as [|x l Hx _ IH]; cbn; [reflexivity|]. rewrite Hx. exact IH.
Qed.

Lemma Forall_bit_to_kills pid t :
  Forall (bit_to pid) t ->
  forall p sig, In (Kill p sig) t -> p = pid /\ 0 < p /\ (sig = SIGUSR1 \/ sig = SIGUSR2).
Proof.
  intros Hall p sig Hin. rewrite Forall_forall in Hall.
  destruct (Hall _ Hin) as (-> & Hpos & Hsig). auto.
Qed.

Lemma kills_no_kill t : Forall (fun e => fallible e = false) t -> kills t = [].
Proof.
  induction 1 as [|e t He _ IH]; cbn; [reflexivity|].
  destruct e; cbn in He; try discriminate; exact IH.
Qed.

(** The shape of every run of the sender. *)
Lemma client_main_shape sys ack_after (ft_atoi : cstring -> Z) (argv : list cstring) s h :
  let pid := ft_atoi (nth 1 argv []) in
  let install := Sigaction SIGUSR1 Ack_handler SA_RESTART in
  exists t,
    trace_of (client_main sys ack_after ft_atoi argv s h) = h ++ t
    /\ Forall (bit_to pid) t
    /\ (kills t <> [] ->
        exists t', t = install :: t' /\ sys h install <> -1
                   /\ List.length argv = 3%nat /\ 0 < pid).
Proof.
  cbv zeta. rewrite client_main_cases. cbv zeta.
  destruct (Z.eqb_spec (Z.of_nat (List.length argv)) 3) as [Hargc|Hargc]; cbn [negb].
  - destruct (Z.leb_spec (ft_atoi (nth 1 argv [])) 0) as [Hpid|Hpid].
    + eexists. unfold trace_of. cbn [snd]. split; [reflexivity|].
      split; [repeat constructor|]. intros H. exfalso. apply H. reflexivity.
    + destruct (Z.eqb_spec (sys h (Sigaction SIGUSR1 Ack_handler SA_RESTART)) (-1)) as [Hs|Hs].
      * eexists. unfold trace_of. cbn [snd]. split; [reflexivity|].
        split; [repeat constructor|]. intros H. exfalso. apply H. reflexivity.
      * set (pid := ft_atoi (nth 1 argv [])) in *.
        assert (Hm : emits_only (bit_to pid) (fun _ : Z => True)
                  (send_message sys ack_after pid (nth 2 argv []) ;;
                   emit (Putstr_fd ("Message sent successfully!" ++ nl) STDIN_FILENO) ;;
                   ret EXIT_SUCCESS)).
        { apply (emits_only_bind _ (fun _ => True)).
          - apply send_message_emits; cbn; auto.
          - intros _ _. apply (emits_only_bind _ (fun _ => True));
              [apply emits_only_emit; cbn; auto|intros _ _].
            apply emits_only_ret. exact I. }
        destruct (Hm s (h ++ [Sigaction SIGUSR1 Ack_handler SA_RESTART]))
          as (t & Et & Ht & _).
        exists (Sigaction SIGUSR1 Ack_handler SA_RESTART :: t).
        rewrite Et, <- app_assoc. split; [reflexivity|].
        split; [constructor; [exact I|exact Ht]|].
        intros _. exists t. split; [reflexivity|]. split; [exact Hs|]. split; lia.
  - eexists. unfold trace_of. cbn [snd]. split; [reflexivity|].
    split; [repeat constructor|]. intros H. exfalso. apply H. reflexivity.
Qed.

(** X3. Whatever the calls return, every [kill] of the sender sends SIGUSR1
    or SIGUSR2 to the id its first argument converts to, and that id is
    positive: no signal goes to another process, to a process group (id 0 or
    negative), or carries another number. *)
Theorem sender_targets sys ack_after (ft_atoi : cstring -> Z) (argv : list cstring) s h :
  exists t,
    trace_of (client_main sys ack_after ft_atoi argv s h) = h ++ t
    /\ forall p sig,
         In (Kill p sig) t ->
         p = ft_atoi (nth 1 argv []) /\ 0 < p /\ (sig = SIGUSR1 \/ sig = SIGUSR2).
Proof.
  destruct (client_main_shape sys ack_after ft_atoi argv s h) as (t & Et & Ht & _).
  exists t. split; [exact Et|]. exact (Forall_bit_to_kills _ t Ht).
Qed.

(** X4. The sender sends no bit before its acknowledgment handler is in
    place: if a run sends any signal, its first call is the [sigaction] that
    installs [ack_handler] for SIGUSR1, and that call succeeded. *)
Theorem handler_installed_first sys ack_after (ft_atoi : cstring -> Z)
    (argv : list cstring) s h t :
  trace_of (client_main sys ack_after ft_atoi argv s h) = h ++ t ->
  kills t <> [] ->
  exists t',
    t = Sigaction SIGUSR1 Ack_handler SA_RESTART :: t'
    /\ sys h (Sigaction SIGUSR1 Ack_handler SA_RESTART) <> -1.
Proof.
  intros Et Hk.
  destruct (client_main_shape sys ack_after ft_atoi argv s h) as (t0 & Et0 & _ & Hfirst).
  rewrite Et in Et0. apply app_inv_head in Et0. subst t0.
  destruct (Hfirst Hk) as (t' & E & Hs & _). exists t'. auto.
Qed.

(** A run that sends Hi; and a run whose [sigaction] fails, which sends
    nothing. *)
Lemma handler_installed_first_witness :
  (exists t',
     trace_of (client_main sys_ok ack_now atoi [cstr "./client"; cstr "4242"; cstr "Hi"]
                 client_init [])
     = Sigaction SIGUSR1 Ack_handler SA_RESTART :: t'
     /\ kills t' <> [])
  /\ kills (trace_of (client_main (sys_fail_at 0) ack_now atoi
                        [cstr "./client"; cstr "4242"; cstr "Hi"] client_init [])) = [].
Proof.
  split; [|vm_compute; reflexivity].
  destruct (handler_installed_first sys_ok ack_now atoi
              [cstr "./client"; cstr "4242"; cstr "Hi"] client_init []
              (trace_of (client_main sys_ok ack_now atoi
                           [cstr "./client"; cstr "4242"; cstr "Hi"] client_init [])))
    as (t' & Et & _).
  - reflexivity.
  - vm_compute. discriminate.
  - exists t'. split; [exact Et|].
    change (kills t') with (kills (Sigaction SIGUSR1 Ack_handler SA_RESTART :: t')).
    rewrite <- Et. vm_compute. discriminate.
Defined.

(** The first bit of Hi goes to 4242, the id given. *)
Lemma sender_targets_witness :
  4242 = atoi (nth 1 [cstr "./client"; cstr "4242"; cstr "Hi"] [])
  /\ 0 < 4242 /\ (SIGUSR2 = SIGUSR1 \/ SIGUSR2 = SIGUSR2).
Proof.
  destruct (sender_targets sys_ok ack_now atoi [cstr "./client"; cstr "4242"; cstr "Hi"]
              client_init []) as (t & Et & Hall).
  apply (Hall 4242 SIGUSR2).
  cbn [app] in Et. rewrite <- Et. right. left. reflexivity.
Defined.

(** ** A run that returns *)

Section Sender_returns.

Variable sys : list event -> event -> Z.
Variable ack_after : list event -> option nat.
Variable pid : Z.

Lemma send_char_loop_ret ch n :
  forall s h s' h',
    send_char_loop sys ack_after pid ch n s h = (Ret tt, s', h') ->
    kills h' = kills h ++ tag pid (map (fun i => signal_of_bit (Z.testbit ch i)) (down n)).
Proof.
  induction n as [|n IH]; intros s h s' h'; cbn [send_char_loop down map tag].
  - unfold ret. intros E. inversion E. cbn. rewrite app_nil_r. reflexivity.
  - rewrite shift_and_testbit by lia. intros E.
    apply bind_ret_eq in E as (u0 & s0 & h0 & E0 & E).
    unfold put in E0. inversion E0. subst s0 h0. clear E0.
    apply bind_ret_eq in E as (u1 & s1 & h1 & E1 & E).
    apply bind_ret_eq in E as (u2 & s2 & h2 & E2 & E).
    apply bind_ret_eq in E as (u3 & s3 & h3 & E3 & E).
    assert (H1 : h1 = h ++ [Kill pid (signal_of_bit (Z.testbit ch (Z.of_nat n)))]).
    { revert E1. unfold signal_of_bit. destruct (Z.testbit ch (Z.of_nat n));
        unfold bind, call; destruct (_ =? -1);
        rewrite ?sys_error_run; unfold ret; intros E1; inversion E1; reflexivity. }
    assert (H2 : kills h2 = kills h1).
    { revert E2. unfold wait_for_ack. destruct (ack_after h1) as [k|]; [|discriminate].
      intros E2. inversion E2. rewrite kills_app, kills_usleep, app_nil_r. reflexivity. }
    unfold emit in E3. inversion E3. subst s3 h3.
    rewrite (IH _ _ _ _ E), kills_app, H2, H1, kills_app. cbn [kills flat_map app].
    rewrite <- !app_assoc. reflexivity.
Qed.

Lemma send_message_ret msg :
  forall s h s' h',
    send_message sys ack_after pid msg s h = (Ret tt, s', h') ->
    kills h' = kills h ++ tag pid (message_signals msg).
Proof.
  induction msg as [|ch rest IH]; intros s h s' h'; cbn [send_message message_signals].
  - apply (send_char_loop_ret 0 8).
  - destruct (ch =? 0); [apply (send_char_loop_ret 0 8)|].
    intros E. apply bind_ret_eq in E as ([] & s1 & h1 & E1 & E).
    rewrite (IH s1 h1 s' h' E), (send_char_loop_ret ch 8 s h s1 h1 E1).
    unfold tag. rewrite map_app, app_assoc. reflexivity.
Qed.

End Sender_returns.

Lemma no_confirmation_in_send_message sys ack_after pid msg s h :
  exists t,
    trace_of (send_message sys ack_after pid msg s h) = h ++ t
    /\ filter is_confirmation t = [].
Proof.
  destruct (send_message_emits (fun e => is_confirmation e = false) sys ack_after pid
              eq_refl eq_refl eq_refl (fun _ => eq_refl) (fun _ => eq_refl) msg s h)
    as (t & Et & Ht & _).
  exists t. split; [exact Et|]. apply Forall_filter_nil. exact Ht.
Qed.

(** X5. The sender reports success only for a whole transmission: a run of
    [main] that returns has sent, to the id given, every signal of the
    message and of its terminator, each one acknowledged, before its one
    confirmation line, and returns EXIT_SUCCESS; a run that does not return
    prints no confirmation. *)
Theorem success_means_all_sent sys ack_after (ft_atoi : cstring -> Z)
    (argv : list cstring) s h :
  let r := client_main sys ack_after ft_atoi argv s h in
  let pid := ft_atoi (nth 1 argv []) in
  (forall v, result r = Ret v ->
     v = EXIT_SUCCESS
     /\ exists t,
          trace_of r = h ++ t ++ [Putstr_fd ("Message sent successfully!" ++ nl) STDIN_FILENO]
          /\ kills t = tag pid (message_signals (nth 2 argv []))
          /\ filter is_confirmation t = [])
  /\ ((forall v, result r <> Ret v) ->
      exists t, trace_of r = h ++ t /\ filter is_confirmation t = []).
Proof.
  cbv zeta. rewrite client_main_cases. cbv zeta.
  set (pid := ft_atoi (nth 1 argv [])).
  set (install := Sigaction SIGUSR1 Ack_handler SA_RESTART).
  destruct (negb (Z.of_nat (List.length argv) =? 3)).
  { unfold result, trace_of. cbn [fst snd]. split; [discriminate|].
    intros _. eexists. split; reflexivity. }
  destruct (pid <=? 0).
  { unfold result, trace_of. cbn [fst snd]. split; [discriminate|].
    intros _. eexists. split; reflexivity. }
  destruct (sys h install =? -1).
  { unfold result, trace_of. cbn [fst snd]. split; [discriminate|].
    intros _. eexists. split; reflexivity. }
  destruct (no_confirmation_in_send_message sys ack_after pid (nth 2 argv []) s (h ++ [install]))
    as (t & Et & Hnc).
  unfold bind.
  destruct (send_message sys ack_after pid (nth 2 argv []) s (h ++ [install]))
    as [[[u|x|] s1] h1] eqn:E; unfold trace_of in Et; cbn [snd] in Et; subst h1.
  - destruct u. pose proof (send_message_ret sys ack_after pid _ _ _ _ _ E) as Hk.
    rewrite kills_app in Hk. apply app_inv_head in Hk.
    unfold emit, ret, result, trace_of. cbn [fst snd]. split.
    + intros v Ev. injection Ev as <-. split; [reflexivity|].
      exists (install :: t). rewrite <- !app_assoc. split; [reflexivity|].
      split; [exact Hk|exact Hnc].
    + intros Hno. exfalso. exact (Hno EXIT_SUCCESS eq_refl).
  - unfold result, trace_of. cbn [fst snd]. split; [discriminate|].
    intros _. exists (install :: t). rewrite <- app_assoc. split; [reflexivity|exact Hnc].
  - unfold result, trace_of. cbn [fst snd]. split; [discriminate|].
    intros _. exists (install :: t). rewrite <- app_assoc. split; [reflexivity|exact Hnc].
Qed.

(** The message Hi sent in full; and the same run with its sixth [kill]
    failing. *)
Lemma success_means_all_sent_witness :
  (let r := client_main sys_ok ack_now atoi [cstr "./client"; cstr "4242"; cstr "Hi"]
              client_init [] in
   exists t,
     trace_of r = [] ++ t ++ [Putstr_fd ("Message sent successfully!" ++ nl) STDIN_FILENO]
     /\ kills t = tag 4242 (message_signals (cstr "Hi"))
     /\ filter is_confirmation t = [])
  /\ (let r := client_main (sys_fail_at 11) ack_now atoi
                 [cstr "./client"; cstr "4242"; cstr "Hi"] client_init [] in
      exists t, trace_of r = [] ++ t /\ filter is_confirmation t = []
                /\ List.length (kills t) = 6%nat).
Proof.
  split; cbv zeta.
  - destruct (proj1 (success_means_all_sent sys_ok ack_now atoi
                       [cstr "./client"; cstr "4242"; cstr "Hi"] client_init [])
                EXIT_SUCCESS) as (_ & t & Et & Hk & Hc).
    + vm_compute. reflexivity.
    + exists t. split; [exact Et|]. split; [exact Hk|exact Hc].
  - destruct (proj2 (success_means_all_sent (sys_fail_at 11) ack_now atoi
                       [cstr "./client"; cstr "4242"; cstr "Hi"] client_init []))
      as (t & Et & Hc).
    + intros v. vm_compute. discriminate.
    + exists t. split; [exact Et|]. split; [exact Hc|].
      cbn [app] in Et. rewrite <- Et. vm_compute. reflexivity.
Defined.

(** * Further properties of the receiver's start *)

Lemma server_main_cases sys (argv : list cstring) st h :
  let flags := Z.lor SA_SIGINFO SA_RESTART in
  let pid := sys h Getpid in
  let banner := [Getpid; Printf ("PID: %d" ++ nl) [pid];
                 Printf ("Waiting for a message..." ++ nl) []] in
  let one := Sigaction SIGUSR1 Signal_handler flags in
  let two := Sigaction SIGUSR2 Signal_handler flags in
  server_main sys argv st h =
    if negb (Z.of_nat (List.length argv) =? 1) then
      (Exit EXIT_FAILURE, st,
       h ++ [Fprintf_stderr ("Error: wrong format" ++ nl);
             Fprintf_stderr ("Usage: ./server" ++ nl)])
    else if sys (h ++ banner) one =? -1 then
      (Exit EXIT_FAILURE, st, h ++ banner ++ [one] ++ report "Server: SIGUSR1 setup failed")
    else if sys (h ++ banner ++ [one]) two =? -1 then
      (Exit EXIT_FAILURE, st,
       h ++ banner ++ [one; two] ++ report "Server: SIGUSR2 setup failed")
    else (Hang, st, h ++ banner ++ [one; two]).
Proof.
  cbv zeta. unfold server_main, validate_input_server.
  destruct (Z.of_nat (List.length argv) =? 1); cbn [negb].
  - unfold bind at 1. unfold ret at 1.
    unfold bind at 1. unfold call at 1.
    unfold bind at 1. unfold display_information_server.
    unfold bind at 1. unfold emit at 1. unfold emit at 1.
    unfold bind at 1. unfold setup_signals. cbv zeta.
    unfold bind at 1. unfold bind at 1. unfold call at 1.
    rewrite <- !app_assoc. cbn [app].
    destruct (sys _ (Sigaction SIGUSR1 _ _) =? -1).
    + rewrite sys_error_run. rewrite <- !app_assoc. reflexivity.
    + unfold ret at 1. unfold bind at 1. unfold call at 1.
      rewrite <- !app_assoc. cbn [app].
      destruct (sys _ (Sigaction SIGUSR2 _ _) =? -1).
      * rewrite sys_error_run. rewrite <- !app_assoc. reflexivity.
      * unfold ret, hang. reflexivity.
  - unfold bind, emit, exit. rewrite <- app_assoc. reflexivity.
Qed.

(** X2. The receiver started with an argument prints its two usage lines
    on the error stream and exits with EXIT_FAILURE before any other call.
    Started with none, and both registrations succeeding, it asks for its
    id, prints it and the waiting line, installs [signal_handler] with
    SA_SIGINFO and SA_RESTART for SIGUSR1 and then for SIGUSR2, and never
    returns. *)
Theorem server_startup sys (argv : list cstring) st h :
  let r := server_main sys argv st h in
  let flags := Z.lor SA_SIGINFO SA_RESTART in
  let banner := [Getpid; Printf ("PID: %d" ++ nl) [sys h Getpid];
                 Printf ("Waiting for a message..." ++ nl) []] in
  let one := Sigaction SIGUSR1 Signal_handler flags in
  let two := Sigaction SIGUSR2 Signal_handler flags in
  (List.length argv <> 1%nat ->
   result r = Exit EXIT_FAILURE
   /\ trace_of r = h ++ [Fprintf_stderr ("Error: wrong format" ++ nl);
                         Fprintf_stderr ("Usage: ./server" ++ nl)])
  /\ (List.length argv = 1%nat ->
      sys (h ++ banner) one <> -1 -> sys (h ++ banner ++ [one]) two <> -1 ->
      result r = Hang /\ exit_status (result r) = None
      /\ trace_of r = h ++ banner ++ [one; two]
      /\ state_of r = st).
Proof.
  cbv zeta. rewrite server_main_cases. cbv zeta. split.
  - intros Hlen. destruct (Z.eqb_spec (Z.of_nat (List.length argv)) 1) as [E|E]; [lia|].
    cbn [negb]. unfold result, trace_of. cbn [fst snd]. auto.
  - intros Hlen H1 H2.
    destruct (Z.eqb_spec (Z.of_nat (List.length argv)) 1) as [E|E]; [|lia].
    cbn [negb].
    destruct (Z.eqb_spec (sys (h ++ [Getpid; Printf ("PID: %d" ++ nl) [sys h Getpid];
                                     Printf ("Waiting for a message..." ++ nl) []])
                            (Sigaction SIGUSR1 Signal_handler (Z.lor SA_SIGINFO SA_RESTART)))
                (-1)) as [F|_]; [contradiction|].
    destruct (Z.eqb_spec (sys (h ++ [Getpid; Printf ("PID: %d" ++ nl) [sys h Getpid];
                                     Printf ("Waiting for a message..." ++ nl) []]
                                 ++ [Sigaction SIGUSR1 Signal_handler
                                       (Z.lor SA_SIGINFO SA_RESTART)])
                            (Sigaction SIGUSR2 Signal_handler (Z.lor SA_SIGINFO SA_RESTART)))
                (-1)) as [F|_]; [contradiction|].
    unfold result, state_of, trace_of. cbn [fst snd exit_status]. auto.
Qed.

(** The receiver started as ./server now, and as ./server, alone. *)
Lemma server_startup_witness :
  (let r := server_main sys_ok [cstr "./server"; cstr "now"] server_init [] in
   result r = Exit EXIT_FAILURE
   /\ trace_of r = [] ++ [Fprintf_stderr ("Error: wrong format" ++ nl);
                          Fprintf_stderr ("Usage: ./server" ++ nl)])
  /\ (let r := server_main sys_ok [cstr "./server"] server_init [] in
      result r = Hang /\ exit_status (result r) = None
      /\ trace_of r
         = [] ++ [Getpid; Printf ("PID: %d" ++ nl) [sys_ok [] Getpid];
                  Printf ("Waiting for a message..." ++ nl) []]
              ++ [Sigaction SIGUSR1 Signal_handler (Z.lor SA_SIGINFO SA_RESTART);
                  Sigaction SIGUSR2 Signal_handler (Z.lor SA_SIGINFO SA_RESTART)]
      /\ state_of r = server_init).
Proof.
  split.
  - apply (proj1 (server_startup sys_ok [cstr "./server"; cstr "now"] server_init [])).
    cbn. lia.
  - apply (proj2 (server_startup sys_ok [cstr "./server"] server_init []));
      [reflexivity | unfold sys_ok; discriminate | unfold sys_ok; discriminate].
Defined.

(** * Further properties of the interleaved sender *)

Module Interleaved.

Import Async Stop_and_wait.

(** X13. However the acknowledgment handler is interleaved with the sender
    and whatever [kill] returns, the signals sent so far are, in order and
    all to the target, the first signals of the message; once
    [send_message] has returned they are all of them, terminator
    included. *)
Theorem signals_in_order pid m s :
  reachable (start pid m) s ->
  (exists rest, tag pid (message_signals m) = sent_signals (log s) ++ tag pid rest)
  /\ (at_pc s = Returned -> sent_signals (log s) = tag pid (message_signals m)).
Proof. exact (interleaved_signals pid m s). Qed.

(** The message A: a run in which the acknowledgment comes late and the
    second [kill] fails, and a run to the end. *)
Lemma signals_in_order_witness :
  (let s := run [Program 0; Program 0; Program 0; Program 0; Program 0; Program 0;
                 Signal SIGUSR1; Program 0; Program 0; Program 0; Program 0; Program (-1)]
              (start 4242 (cstr "A")) in
   at_pc s = Exited EXIT_FAILURE
   /\ sent_signals (log s) = [(4242, SIGUSR2); (4242, SIGUSR1)]
   /\ exists rest,
        tag 4242 (message_signals (cstr "A")) = sent_signals (log s) ++ tag 4242 rest)
  /\ (let s := fair 200 (start 4242 (cstr "A")) in
      sent_signals (log s) = tag 4242 (message_signals (cstr "A"))).
Proof.
  split; cbv zeta.
  - split; [reflexivity|]. split; [reflexivity|].
    apply (signals_in_order 4242 (cstr "A")). apply run_reachable, reach_start.
  - apply (signals_in_order 4242 (cstr "A")).
    + apply fair_reachable, reach_start.
    + vm_compute. reflexivity.
Defined.

(** X14. An acknowledged sender terminates: when the handler runs each time
    the sender polls with the flag clear and no [kill] fails, [send_message]
    returns after fifty steps for each character and for the terminator,
    having sent every signal of the message. *)
Theorem acknowledged_sender_returns pid m :
  let s := fair (50 * (List.length (content m) + 1)) (start pid m) in
  reachable (start pid m) s
  /\ at_pc s = Returned
  /\ sent_signals (log s) = tag pid (message_signals m).
Proof.
  cbv zeta. split; [apply fair_reachable, reach_start|].
  exact (fair_completes pid m).
Qed.

Lemma flow_run_unacked l :
  forall q q', flow_run q l = Some q' -> ~ In Handled l -> unacked q ->
  seen l = 0%nat /\ unacked q'.
Proof.
  unfold unacked. induction l as [|o l IH]; intros q q' Hrun Hno Hq; cbn in Hrun.
  - injection Hrun as <-. auto.
  - destruct (flow_step q o) as [q1|] eqn:E; [|discriminate].
    assert (Hno' : ~ In Handled l) by (intros H; apply Hno; right; exact H).
    assert (H1 : is_seen o = false /\ (q1 = Idle \/ q1 = Armed false \/ q1 = In_flight false)).
    { destruct o as [| p sg | f | | | msg0].
      - destruct Hq as [->|[->| ->]]; cbn in E; try discriminate.
        injection E as <-. auto.
      - destruct Hq as [->|[->| ->]]; cbn in E; try discriminate.
        injection E as <-. auto.
      - destruct Hq as [->|[->| ->]]; cbn in E; try discriminate.
        cbn [is_seen]. destruct (f =? 0); [|discriminate].
        injection E as <-. auto.
      - cbn in E. injection E as <-. auto.
      - exfalso. apply Hno. left. reflexivity.
      - cbn in E. injection E as <-. auto. }
    destruct H1 as [Hs Hq1]. destruct (IH _ _ Hrun Hno' Hq1) as [IH1 IH2].
    rewrite seen_cons, Hs, IH1. auto.
Qed.

Lemma sent_is_length l : sent l = List.length (sent_signals l).
Proof.
  induction l as [|o l IH]; [reflexivity|].
  rewrite sent_cons, IH. destruct o; reflexivity.
Qed.

Lemma message_signals_length m : (8 <= List.length (message_signals m))%nat.
Proof.
  destruct m as [|ch rest]; cbn [message_signals]; [cbn; lia|].
  destruct (ch =? 0); [cbn; lia|]. rewrite length_app. cbn. lia.
Qed.

(** X15. Without an acknowledgment nothing moves: in every state the sender
    reaches while its handler has not run, it has sent at most one bit and
    has not returned from [send_message]. *)
Theorem silence_blocks_the_sender pid m s :
  reachable (start pid m) s ->
  ~ In Handled (log s) ->
  (sent (log s) <= 1)%nat /\ at_pc s <> Returned.
Proof.
  intros Hreach Hno.
  destruct (flow_invariant _ _ Hreach (start_agrees pid m)) as (q & Hq & _).
  unfold flow_of in Hq.
  destruct (flow_run_unacked _ _ _ Hq Hno (or_introl eq_refl)) as [Hseen _].
  destruct (flow_run_balance _ _ _ Hq) as [Hbal _]. cbn [pending] in Hbal.
  assert (Hsent : (sent (log s) <= 1)%nat) by (destruct q; cbn [pending] in Hbal; lia).
  split; [exact Hsent|].
  intros Hret. destruct (interleaved_signals pid m s Hreach) as [_ Hall].
  specialize (Hall Hret). rewrite sent_is_length, Hall in Hsent.
  unfold tag in Hsent. rewrite length_map in Hsent.
  pose proof (message_signals_length m). lia.
Qed.

(** Twelve statements of the program and no signal: one bit sent, then
    polling. *)
Lemma silence_blocks_the_sender_witness :
  let s := run (repeat (Program 0) 12) (start 4242 (cstr "A")) in
  log s = [Cleared; Sent 4242 SIGUSR2; Read 0; Slept; Read 0; Slept; Read 0; Slept; Read 0;
           Slept]
  /\ (sent (log s) <= 1)%nat /\ at_pc s <> Returned.
Proof.
  cbv zeta.
  assert (E : log (run (repeat (Program 0) 12) (start 4242 (cstr "A")))
              = [Cleared; Sent 4242 SIGUSR2; Read 0; Slept; Read 0; Slept; Read 0; Slept;
                 Read 0; Slept]) by reflexivity.
  split; [exact E|].
  apply (silence_blocks_the_sender 4242 (cstr "A")).
  - apply run_reachable, reach_start.
  - rewrite E. intros H. repeat (destruct H as [H|H]; [discriminate|]). exact H.
Defined.

(** Polling with the flag clear: two statements later the sender polls
    again, having read the flag and slept. *)
Lemma polling_rounds r k :
  forall s,
    at_pc s = Poll_ack -> g_ack_received s = 0 ->
    let s' := run (repeat (Program r) (2 * k)) s in
    at_pc s' = Poll_ack /\ g_ack_received s' = 0
    /\ log s' = log s ++ List.concat (repeat [Read 0; Slept] k).
Proof.
  induction k as [|k IH]; intros s Hpc Hack; cbv zeta.
  - cbn [Nat.mul repeat run List.concat]. rewrite app_nil_r. auto.
  - replace (2 * S k)%nat with (S (S (2 * k))) by lia.
    cbn [repeat].
    assert (E : run (Program r :: Program r :: repeat (Program r) (2 * k)) s
                = run (repeat (Program r) (2 * k))
                    (goto Poll_ack (note Slept (goto Sleep_poll (note (Read 0) s))))).
    { destruct s as [p t m0 f c0 b g l]. cbn [at_pc g_ack_received] in Hpc, Hack.
      subst p g. reflexivity. }
    rewrite E.
    destruct (IH (goto Poll_ack (note Slept (goto Sleep_poll (note (Read 0) s))))
                eq_refl Hack) as (Epc & Eack & Elog).
    split; [exact Epc|]. split; [exact Eack|].
    rewrite Elog. cbn [goto note log repeat List.concat].
    rewrite <- !app_assoc. reflexivity.
Qed.

(** From the test of the bit loop with [bit] at 7, three statements: the
    flag is cleared and the bit 7 of [ch] is sent. *)
Lemma first_bit_of_unit r s :
  r <> -1 -> at_pc s = Bit_test -> bit s = 7 ->
  run (repeat (Program r) 3) s
  = mkSender Poll_ack (target s) (msg s) (final s) (ch s) 6 0
      (log s ++ [Cleared; Sent (target s) (signal_of_bit (Z.testbit (ch s) 7))]).
Proof.
  intros Hr Hpc Hbit. apply Z.eqb_neq in Hr.
  destruct s as [p t m0 f c0 b g l]. cbn [at_pc bit] in Hpc, Hbit. subst p b.
  cbn [target msg final ch log repeat run].
  unfold program_step at 1. cbn [at_pc bit Z.geb Z.compare].
  unfold program_step at 1. cbn [goto at_pc].
  unfold program_step at 1.
  cbn [goto note set_ack set_bit at_pc target msg final ch bit g_ack_received log].
  cbv zeta. rewrite Hr. rewrite shift_and_testbit by lia.
  unfold goto, note, set_bit.
  cbn [at_pc target msg final ch bit g_ack_received log].
  rewrite <- app_assoc. cbn [app].
  destruct (Z.testbit c0 7); reflexivity.
Qed.

(** The first four statements: the first bit of the message is sent. *)
Lemma first_bit_sent pid m r :
  r <> -1 ->
  let s := run (repeat (Program r) 4) (start pid m) in
  at_pc s = Poll_ack /\ g_ack_received s = 0
  /\ log s = [Cleared; Sent pid (hd SIGUSR2 (message_signals m))].
Proof.
  intros Hr. cbv zeta.
  assert (E : exists c0 rest fin,
            run (repeat (Program r) 4) (start pid m)
            = run (repeat (Program r) 3) (enter c0 rest fin (start pid m))
            /\ hd SIGUSR2 (message_signals m) = signal_of_bit (Z.testbit c0 7)).
  { destruct m as [|c0 rest].
    - exists 0, [], true. split; reflexivity.
    - destruct (c0 =? 0) eqn:E0.
      + exists 0, (c0 :: rest), true. split.
        * change 4%nat with (S 3). cbn [repeat run].
          unfold program_step at 1. cbn [start at_pc msg]. rewrite E0. reflexivity.
        * cbn [message_signals]. rewrite E0. reflexivity.
      + exists c0, rest, false. split.
        * change 4%nat with (S 3). cbn [repeat run].
          unfold program_step at 1. cbn [start at_pc msg]. rewrite E0. reflexivity.
        * cbn [message_signals]. rewrite E0. reflexivity. }
  destruct E as (c0 & rest & fin & -> & ->).
  rewrite (first_bit_of_unit r (enter c0 rest fin (start pid m)) Hr eq_refl eq_refl).
  cbn [at_pc g_ack_received log enter start target ch app]. auto.
Qed.

(** X6. There is no timeout: when every [kill] succeeds and [ack_handler]
    never runs, the sender sends the first bit of the message and then
    tests the flag and calls [usleep] again and again, for ever. After four
    statements and [k] rounds of polling it is at the test of the polling
    loop, having sent that one signal and slept [k] times. *)
Theorem unacknowledged_sender_polls pid m r k :
  r <> -1 ->
  let s := run (repeat (Program r) (4 + 2 * k)) (start pid m) in
  reachable (start pid m) s
  /\ at_pc s = Poll_ack
  /\ log s = [Cleared; Sent pid (hd SIGUSR2 (message_signals m))]
              ++ List.concat (repeat [Read 0; Slept] k).
Proof.
  intros Hr. cbv zeta. split; [apply run_reachable, reach_start|].
  destruct (first_bit_sent pid m r Hr) as (Epc & Eack & Elog).
  rewrite repeat_app.
  assert (Happ : forall l1 l2 s,
            (forall s', program_step r s' = None -> run l2 s' = s') ->
            Forall (eq (Program r)) l1 ->
            run (l1 ++ l2) s = run l2 (run l1 s)).
  { induction l1 as [|c l1 IH]; intros l2 s Hstop Hall; [reflexivity|].
    inversion Hall as [|c' l' Hc Hall']; subst.
    cbn [app run]. destruct (program_step r s) as [s1|] eqn:E.
    - apply IH; assumption.
    - symmetry. apply Hstop. exact E. }
  rewrite Happ.
  - destruct (polling_rounds r k _ Epc Eack) as (Epc' & _ & Elog').
    split; [exact Epc'|]. rewrite Elog', Elog. reflexivity.
  - intros s' Hs'. destruct k as [|k]; [reflexivity|].
    replace (2 * S k)%nat with (S (S (2 * k))) by lia.
    cbn [repeat run]. rewrite Hs'. reflexivity.
  - cbn [repeat]. repeat constructor.
Qed.

(** The message Hi to a receiver that never answers: one signal, then
    three rounds of polling. *)
Lemma unacknowledged_sender_polls_witness :
  let s := run (repeat (Program 0) 10) (start 4242 (cstr "Hi")) in
  reachable (start 4242 (cstr "Hi")) s
  /\ at_pc s = Poll_ack
  /\ log s = [Cleared; Sent 4242 SIGUSR2; Read 0; Slept; Read 0; Slept; Read 0; Slept].
Proof.
  apply (unacknowledged_sender_polls 4242 (cstr "Hi") 0 3). lia.
Defined.

End Interleaved.
